(** * Crypto-Data-Analyzer: the fetch / aggregate / publish pipeline

    A shallow embedding of [CryptoTracker] (main.py) and [CryptoWebTracker]
    (app.py).  The two classes define [get_coin_names], [get_market_data],
    [process_data] and [analyze_market] with identical bodies, so these are
    embedded once; the two [run] loops differ (only app.py stores
    [latest_data]) and are embedded separately in [Module Main] and
    [Module App].

    What belongs to pandas, numpy and the operating system is kept abstract:
    - the scalars of the numeric columns are a type [F] of non-NaN values
      with the operations the code uses (class [Float64]); a column cell is
      [option F], with [None] standing for NaN.  [pd.to_numeric] gives a
      column the dtype float64, or int64 when every cell of the column is
      an integer literal; the arithmetic of int64 columns is the instance
      [Concrete.Int64];
    - the default sorting algorithm of [DataFrame.sort_values]
      ([kind='quicksort'], documented as not stable) is any function that
      returns a sorted permutation (class [Quicksort]); numpy's generic
      implementation of it is [NumpyQS];
    - HTTP responses, the clock and the outcome of file writes are read from
      a per-iteration [World]. *)

From stdpp Require Import base option list sorting strings gmap.
From Stdlib Require Import Ascii ZArith Lia.

Open Scope string_scope.
Open Scope list_scope.

(** ** Python string methods used by the code *)

(** [s.endswith(suffix)]: some tail of [s] is [suffix]. *)
Fixpoint endswith (s suffix : string) : bool :=
  if String.eqb s suffix then true
  else match s with
       | EmptyString => false
       | String _ s' => endswith s' suffix
       end.

(** [s.replace(old, new)] for a non-empty [old]: scan left to right, replace
    every non-overlapping occurrence.  [skip] counts the characters of an
    occurrence that are still to be dropped. *)
Fixpoint replace_from (old new : string) (skip : nat) (s : string) : string :=
  match s with
  | EmptyString => EmptyString
  | String c s' =>
      match skip with
      | S k => replace_from old new k s'
      | O =>
          if String.prefix old s
          then new +:+ replace_from old new (String.length old - 1) s'
          else String c (replace_from old new 0 s')
      end
  end.

Definition str_replace (old new s : string) : string := replace_from old new 0 s.

(** [s.upper()] on strings of ASCII characters: the letters a-z are mapped,
    every other byte is left as it is (Python also maps the cased letters
    outside ASCII, which are not embedded). *)
Definition upper_ascii (c : Ascii.ascii) : Ascii.ascii :=
  let n := Ascii.nat_of_ascii c in
  if (97 <=? n)%nat && (n <=? 122)%nat then Ascii.ascii_of_nat (n - 32) else c.

Fixpoint upper (s : string) : string :=
  match s with
  | EmptyString => EmptyString
  | String c s' => String (upper_ascii c) (upper s')
  end.

(** ** Numbers: the numeric columns *)

(** The non-NaN scalars of a numeric column with the operations pandas
    applies to them, in the dtype of the column: IEEE arithmetic for
    float64, arithmetic modulo [2^64] for int64.  Float arithmetic may
    produce NaN ([inf * 0], [inf - inf]), hence [option].  The reductions
    take the non-missing cells of a column. *)
Class Float64 (F : Type) := {
  fzero : F;
  fleb : F → F → bool;
  fleb_total : ∀ x y, fleb x y = true ∨ fleb y x = true;
  fleb_trans : ∀ x y z, fleb x y = true → fleb y z = true → fleb x z = true;
  fmul : F → F → option F;
  fsum : list F → option F;
  fmean : list F → option F;
  fmedian : list F → option F;
  fmax : list F → option F;
  fmin : list F → option F;
  (** [pd.to_numeric(cell, errors='coerce')]: [None] when the cell does not
      parse (or parses to NaN). *)
  to_numeric : string → option F;
}.

(** numpy's [argsort(kind='quicksort')], carrying the rows along with their
    keys: the result is sorted in ascending order and is a permutation of the
    argument; nothing is promised about the order of equal keys. *)
Class Quicksort (F : Type) `{Float64 F} := {
  quicksort : ∀ {A : Type}, (A → F) → list A → list A;
  quicksort_perm : ∀ A (k : A → F) l, quicksort k l ≡ₚ l;
  quicksort_sorted : ∀ A (k : A → F) l,
    Sorted (λ a b, fleb (k a) (k b) = true) (quicksort k l);
}.

(** A cell of a numeric column: [None] is NaN. *)
Definition num (F : Type) : Type := option F.

(** ** Exceptions *)

Inductive Exn := KeyError (k : string) | IndexError | IOError.

Inductive Exc (A : Type) := Ok (a : A) | Raise (e : Exn).
Arguments Ok {A} a.
Arguments Raise {A} e.

Global Instance Exn_eq_dec : EqDecision Exn.
Proof. solve_decision. Defined.

(** ** Stable insertion sort

    Used for [nlargest]/[nsmallest] ([keep='first']) and to build concrete
    [Quicksort] instances. [le a b = true] places [a] before [b]. *)
Section isort.
Context {A : Type} (le : A → A → bool).

Fixpoint insert_by (x : A) (l : list A) : list A :=
  match l with
  | [] => [x]
  | y :: l' => if le x y then x :: l else y :: insert_by x l'
  end.

Fixpoint isort_by (l : list A) : list A :=
  match l with
  | [] => []
  | x :: l' => insert_by x (isort_by l')
  end.
End isort.

(** ** Data model *)

(** One object of the coin-listing endpoint. *)
Record Coin := { coin_symbol : string; coin_name : string }.

(** One object of the 24h-ticker endpoint: every value is a string. *)
Record Ticker := {
  symbol : string;
  lastPrice : string;
  volume : string;
  quoteVolume : string;
  priceChangePercent : string;
  weightedAvgPrice : string;
}.

(** A ticker dict after [get_market_data] has added the key ['name']. *)
Record Pair := { pair_ticker : Ticker; name : string }.

(** What [requests.get] gives: a transport error (it raises), or a status
    code with a body; [json = None] when [r.json()] raises. *)
Inductive Response (A : Type) :=
  | ConnectionError
  | Http (status_code : nat) (json : option A).
Arguments ConnectionError {A}.
Arguments Http {A} status_code json.

(** ** Market Data Fetcher *)

(** [{c['symbol'].upper(): c['name'] for c in coins}]: a later coin with the
    same key overwrites an earlier one. *)
Definition coin_dict (coins : list Coin) : gmap string string :=
  foldl (λ m c, <[upper (coin_symbol c) := coin_name c]> m) ∅ coins.

Definition get_coin_names (r : Response (list Coin)) : gmap string string :=
  match r with
  | Http status (Some coins) => if decide (status = 200) then coin_dict coins else ∅
  | _ => ∅
  end.

(** The loop over [usdt_pairs]: [sym] and the value stored under ['name']. *)
Definition pair_sym (x : Ticker) : string := upper (str_replace "USDT" "" (symbol x)).

Definition add_name (names : gmap string string) (x : Ticker) : Pair :=
  let sym := pair_sym x in
  {| pair_ticker := x; name := default sym (names !! sym) |}.

Definition get_market_data (r : Response (list Ticker)) (rn : Response (list Coin))
    : option (list Pair) :=
  match r with
  | ConnectionError => None
  | Http status body =>
      if decide (status ≠ 200) then None
      else match body with
           | None => None
           | Some data =>
               let usdt_pairs := filter (λ x, endswith (symbol x) "USDT" = true) data in
               let names := get_coin_names rn in
               Some (add_name names <$> usdt_pairs)
           end
  end.

Section aggregator.
Context {F : Type} `{FL : !Float64 F} `{QS : !Quicksort F}.
Abbreviation num := (num F).

(** *** DataFrame rows *)

(** A row of [df] after the five columns went through [pd.to_numeric]. *)
Record FrameRow := {
  f_name : string;
  f_symbol : string;
  f_lastPrice : num;
  f_volume : num;
  f_quoteVolume : num;
  f_priceChangePercent : num;
  f_weightedAvgPrice : num;
}.

(** A row of [final], the table [process_data] returns. *)
Record MarketRow := {
  Name : string;
  Symbol : string;
  Price : num;
  Market_Cap : num;
  Volume_24h : num;
  Change_24h : num;
  Avg_Price : num;
}.

(** NaN-propagating product of two cells, in the dtype of their columns. *)
Definition nmul (a b : num) : num :=
  match a, b with
  | Some x, Some y => fmul x y
  | _, _ => None
  end.

(** [cell > 0] and [cell < 0]; a comparison with NaN is false. *)
Definition gt0 (a : num) : bool :=
  match a with Some x => negb (fleb x fzero) | None => false end.
Definition lt0 (a : num) : bool :=
  match a with Some x => negb (fleb fzero x) | None => false end.

(** *** pandas operations *)

(** The non-missing cells of a column, with the row each belongs to. *)
Definition dropna {A} (key : A → num) (df : list A) : list (F * A) :=
  omap (λ r, (λ v, (v, r)) <$> key r) df.

Definition isna {A} (key : A → num) (df : list A) : list A :=
  filter (λ r, key r = None) df.

(** [df.sort_values(col, ascending=False)], after pandas' [nargsort]: the
    non-missing keys are reversed, sorted ascending with the default
    quicksort and reversed again; the rows with a missing key follow in
    their original order ([na_position='last']). *)
Definition sorted_part {A} (key : A → num) (df : list A) : list A :=
  snd <$> reverse (quicksort fst (reverse (dropna key df))).

Definition sort_values_desc {A} (key : A → num) (df : list A) : list A :=
  sorted_part key df ++ isna key df.

(** [a] may stand before [b] in a frame sorted on [key] in descending
    order with the missing keys last. *)
Definition desc_order {A} (key : A → num) (a b : A) : Prop :=
  match key a, key b with
  | Some x, Some y => fleb y x = true
  | None, Some _ => False
  | _, None => True
  end.

(** [df.nlargest(n, col)] and [df.nsmallest(n, col)] with the default
    [keep='first'], as documented: among equal keys the first occurrences
    are kept, in their order; rows with a missing key come last. *)
Definition nlargest {A} (n : nat) (key : A → num) (df : list A) : list A :=
  take n ((snd <$> isort_by (λ a b, fleb (fst b) (fst a)) (dropna key df)) ++ isna key df).

Definition nsmallest {A} (n : nat) (key : A → num) (df : list A) : list A :=
  take n ((snd <$> isort_by (λ a b, fleb (fst a) (fst b)) (dropna key df)) ++ isna key df).

(** [Series.sum/mean/median/max/min] with the default [skipna=True]. *)
Definition cells (col : list num) : list F := omap id col.
Definition Series_sum (col : list num) : num := fsum (cells col).
Definition Series_mean (col : list num) : num := fmean (cells col).
Definition Series_median (col : list num) : num := fmedian (cells col).
Definition Series_max (col : list num) : num := fmax (cells col).
Definition Series_min (col : list num) : num := fmin (cells col).

(** *** process_data *)

(** [pd.DataFrame(raw_data)] followed by the [pd.to_numeric] loop. *)
Definition to_frame (p : Pair) : FrameRow :=
  let x := pair_ticker p in
  {| f_name := name p;
     f_symbol := symbol x;
     f_lastPrice := to_numeric (lastPrice x);
     f_volume := to_numeric (volume x);
     f_quoteVolume := to_numeric (quoteVolume x);
     f_priceChangePercent := to_numeric (priceChangePercent x);
     f_weightedAvgPrice := to_numeric (weightedAvgPrice x) |}.

(** [df.sort_values('quoteVolume', ascending=False).head(50)]. *)
Definition top50 (raw_data : list Pair) : list FrameRow :=
  take 50 (sort_values_desc f_quoteVolume (to_frame <$> raw_data)).

(** Two frame rows tie when both have a quoteVolume and neither is the
    larger. *)
Definition tie (a b : FrameRow) : Prop :=
  match f_quoteVolume a, f_quoteVolume b with
  | Some x, Some y => fleb x y = true ∧ fleb y x = true
  | _, _ => False
  end.

(** Rows of [out] that tie stand in the order they have in [df]. *)
Definition ties_keep_order (df out : list FrameRow) : Prop :=
  ∀ i j a b, i < j → out !! i = Some a → out !! j = Some b → tie a b →
    ∃ i' j', i' < j' ∧ df !! i' = Some a ∧ df !! j' = Some b.

(** The ['market_cap'] column and the projection into [final]. *)
Definition final_row (r : FrameRow) : MarketRow :=
  let market_cap := nmul (f_lastPrice r) (f_volume r) in
  {| Name := f_name r;
     Symbol := str_replace "USDT" "" (f_symbol r);
     Price := f_lastPrice r;
     Market_Cap := market_cap;
     Volume_24h := f_volume r;
     Change_24h := f_priceChangePercent r;
     Avg_Price := f_weightedAvgPrice r |}.

(** [pd.DataFrame([])] has no columns, so [df['lastPrice']] raises. *)
Definition process_data (raw_data : list Pair) : Exc (list MarketRow) :=
  match raw_data with
  | [] => Raise (KeyError "lastPrice")
  | _ :: _ => Ok (final_row <$> top50 raw_data)
  end.

(** *** analyze_market *)

Record MarketOverview := {
  total_market_cap : num;
  total_volume_24h : num;
  avg_price : num;
  median_price : num;
}.

Record MarketHealth := {
  positive_performers : nat;
  negative_performers : nat;
}.

(** A record of [top_5_by_market_cap]. *)
Record TopCoin := {
  top_Name : string;
  top_Symbol : string;
  top_Market_Cap : num;
  top_Price : num;
}.

Record PriceStatistics := {
  average_price : num;
  ps_median_price : num;
  highest_price : num;
  lowest_price : num;
}.

(** A record of [highest_24h_change] / [lowest_24h_change]. *)
Record ChangeRecord := {
  chg_Name : string;
  chg_Symbol : string;
  chg_Change_24h : num;
}.

Record PriceChanges := {
  highest_24h_change : ChangeRecord;
  lowest_24h_change : ChangeRecord;
  average_24h_change : num;
}.

Record DetailedAnalysis := {
  top_5_by_market_cap : list TopCoin;
  price_statistics : PriceStatistics;
  price_changes : PriceChanges;
}.

Record Stats := {
  timestamp : string;
  market_overview : MarketOverview;
  market_health : MarketHealth;
  detailed_analysis : DetailedAnalysis;
}.

Definition top_coin (r : MarketRow) : TopCoin :=
  {| top_Name := Name r; top_Symbol := Symbol r;
     top_Market_Cap := Market_Cap r; top_Price := Price r |}.

Definition change_record (r : MarketRow) : ChangeRecord :=
  {| chg_Name := Name r; chg_Symbol := Symbol r; chg_Change_24h := Change_24h r |}.

(** [records[0]]: [IndexError] on the empty list. *)
Definition first_record {A} (records : list A) : Exc A :=
  match records with
  | [] => Raise IndexError
  | r :: _ => Ok r
  end.

(** [now] is [datetime.now().strftime('%Y-%m-%d %H:%M')]. *)
Definition analyze_market (now : string) (df : list MarketRow) : Exc Stats :=
  match first_record (change_record <$> nlargest 1 Change_24h df) with
  | Raise e => Raise e
  | Ok highest =>
    match first_record (change_record <$> nsmallest 1 Change_24h df) with
    | Raise e => Raise e
    | Ok lowest =>
      Ok {| timestamp := now;
            market_overview :=
              {| total_market_cap := Series_sum (Market_Cap <$> df);
                 total_volume_24h := Series_sum (Volume_24h <$> df);
                 avg_price := Series_mean (Price <$> df);
                 median_price := Series_median (Price <$> df) |};
            market_health :=
              {| positive_performers := length (filter (λ r, gt0 (Change_24h r) = true) df);
                 negative_performers := length (filter (λ r, lt0 (Change_24h r) = true) df) |};
            detailed_analysis :=
              {| top_5_by_market_cap := top_coin <$> nlargest 5 Market_Cap df;
                 price_statistics :=
                   {| average_price := Series_mean (Price <$> df);
                      ps_median_price := Series_median (Price <$> df);
                      highest_price := Series_max (Price <$> df);
                      lowest_price := Series_min (Price <$> df) |};
                 price_changes :=
                   {| highest_24h_change := highest;
                      lowest_24h_change := lowest;
                      average_24h_change := Series_mean (Change_24h <$> df) |} |} |}
    end
  end.

End aggregator.

Arguments FrameRow F : clear implicits.
Arguments MarketRow F : clear implicits.
Arguments MarketOverview F : clear implicits.
Arguments TopCoin F : clear implicits.
Arguments PriceStatistics F : clear implicits.
Arguments ChangeRecord F : clear implicits.
Arguments PriceChanges F : clear implicits.
Arguments DetailedAnalysis F : clear implicits.
Arguments Stats F : clear implicits.

(** ** Scheduler loop: effects *)

Section scheduler.
Context {F : Type} `{FL : !Float64 F} `{QS : !Quicksort F}.
Abbreviation num := (num F).
Abbreviation FrameRow := (FrameRow F).
Abbreviation MarketRow := (MarketRow F).
Abbreviation Stats := (Stats F).

(** What one pass of the [while] loop reads from outside the program. *)
Record World := {
  w_running : bool;                     (* [self.running] at the loop test *)
  w_ticker : Response (list Ticker);    (* GET /api/v3/ticker/24hr *)
  w_coins : Response (list Coin);       (* GET /coins/list *)
  w_now : string;                       (* the clock, formatted, in [analyze_market] *)
  w_excel : option Exn;                 (* [update_excel]: [Some e] when it raises [e] *)
  w_hour : nat;                         (* [datetime.now().hour] *)
  w_report : option Exn;                (* [make_report]: [Some e] when it raises [e] *)
}.

(** The observable calls of one run, in order. *)
Inductive Event :=
  | EvFetch
  | EvExcel (df : list MarketRow) (stats : Stats)
  | EvReport (df : list MarketRow) (stats : Stats)
  | EvCaught (e : Exn)
  | EvSleep (seconds : nat).

(** How a block of statements ends: normally, by an exception, or by
    [continue]. *)
Inductive Signal (A : Type) :=
  | Normal (a : A)
  | Raised (e : Exn)
  | Continue.
Arguments Normal {A} a.
Arguments Raised {A} e.
Arguments Continue {A}.

(** Statements over a tracker object of type [S]: the object after the
    block, the calls made, and how the block ended.  Assignments made
    before an exception stay. *)
Definition Cmd (S A : Type) : Type := S → S * list Event * Signal A.

Definition ret {S A} (a : A) : Cmd S A := λ st, (st, [], Normal a).

Definition bind {S A B} (c : Cmd S A) (k : A → Cmd S B) : Cmd S B :=
  λ st, match c st with
        | (st1, tr1, Normal a) =>
            match k a st1 with (st2, tr2, sg) => (st2, tr1 ++ tr2, sg) end
        | (st1, tr1, Raised e) => (st1, tr1, Raised e)
        | (st1, tr1, Continue) => (st1, tr1, Continue)
        end.

Definition emit {S} (ev : Event) : Cmd S unit := λ st, (st, [ev], Normal ()).
Definition raise {S A} (e : Exn) : Cmd S A := λ st, (st, [], Raised e).
Definition continue {S A} : Cmd S A := λ st, (st, [], Continue).
Definition get {S} : Cmd S S := λ st, (st, [], Normal st).
Definition modify {S} (f : S → S) : Cmd S unit := λ st, (f st, [], Normal ()).

Definition lift {S A} (r : Exc A) : Cmd S A :=
  match r with Ok a => ret a | Raise e => raise e end.

(** [try: body  except Exception as e: print(...)].  A [continue] inside
    the [try] leaves it without entering the handler. *)
Definition try_except {S} (body : Cmd S unit) : Cmd S unit :=
  λ st, match body st with
        | (st1, tr1, Raised e) => (st1, tr1 ++ [EvCaught e], Normal ())
        | r => r
        end.

(** The calls into the outside world. *)
Definition call_get_market_data {S} (w : World) : Cmd S (option (list Pair)) :=
  bind (emit EvFetch) (λ _, ret (get_market_data (w_ticker w) (w_coins w))).

Definition call_update_excel {S} (w : World) (df : list MarketRow) (stats : Stats)
    : Cmd S unit :=
  bind (emit (EvExcel df stats))
       (λ _, match w_excel w with Some e => raise e | None => ret () end).

Definition call_make_report {S} (w : World) (df : list MarketRow) (stats : Stats)
    : Cmd S unit :=
  bind (emit (EvReport df stats))
       (λ _, match w_report w with Some e => raise e | None => ret () end).

Definition sleep {S} (seconds : nat) : Cmd S unit := emit (EvSleep seconds).

(** [not data]: [None] and the empty list are falsy. *)
Definition falsy {A} (data : option (list A)) : bool :=
  match data with
  | None | Some [] => true
  | Some (_ :: _) => false
  end.

(** [while self.running: iteration], over the worlds of the successive
    passes.  The loop ends when [self.running] is read as [False]; an
    exception that leaves the loop body ends the thread.  A pass that ends
    normally or by [continue] is followed by the next loop test. *)
Fixpoint while_running {S} (iteration : World → Cmd S unit) (ws : list World) (st : S)
    : S * list Event :=
  match ws with
  | [] => (st, [])
  | w :: ws' =>
      if w_running w then
        match iteration w st with
        | (st1, tr1, Raised _) => (st1, tr1)
        | (st1, tr1, _) =>
            match while_running iteration ws' st1 with
            | (st2, tr2) => (st2, tr1 ++ tr2)
            end
        end
      else (st, [])
  end.

Definition is_report (ev : Event) : bool :=
  match ev with EvReport _ _ => true | _ => false end.
Definition is_sleep (ev : Event) : bool :=
  match ev with EvSleep _ => true | _ => false end.

(** How many times [make_report], resp. [time.sleep], was called. *)
Definition count_reports (tr : list Event) : nat := length (List.filter is_report tr).
Definition count_sleeps (tr : list Event) : nat := length (List.filter is_sleep tr).

End scheduler.

Arguments Event F : clear implicits.
Arguments Cmd F : clear implicits.

Arguments Normal {A} a.
Arguments Raised {A} e.
Arguments Continue {A}.

Notation "'let*' x ':=' c 'in' k" := (bind c (λ x, k))
  (at level 10, x pattern, c at level 100, k at level 200).

(** ** main.py: [CryptoTracker.run] *)
Module Main.
Section main.
Context {F : Type} `{FL : !Float64 F} `{QS : !Quicksort F}.
Abbreviation num := (num F).
Abbreviation FrameRow := (FrameRow F).
Abbreviation MarketRow := (MarketRow F).
Abbreviation Stats := (Stats F).
Abbreviation Event := (Event F).
Abbreviation Cmd := (Cmd F).

Record Tracker := {
  update_interval : nat;
  last_report_hour : option nat;
}.

(** [CryptoTracker(update_interval)]. *)
Definition init (interval : nat) : Tracker :=
  {| update_interval := interval; last_report_hour := None |}.

Definition set_last_report_hour (h : nat) (t : Tracker) : Tracker :=
  {| update_interval := update_interval t; last_report_hour := Some h |}.

(** The body of the [try]. *)
Definition cycle (w : World) : Cmd Tracker unit :=
  let* data := call_get_market_data w in
  match data with
  | None | Some [] => continue
  | Some raw_data =>
      let* df := lift (process_data raw_data) in
      let* stats := lift (analyze_market (w_now w) df) in
      let* _ := call_update_excel w df stats in
      let current_hour := w_hour w in
      let* self := get in
      if decide (last_report_hour self ≠ Some current_hour) then
        let* _ := call_make_report w df stats in
        modify (set_last_report_hour current_hour)
      else ret ()
  end.

(** One pass of the [while] body: the [try] statement, then the sleep. *)
Definition iteration (w : World) : Cmd Tracker unit :=
  let* _ := try_except (cycle w) in
  let* self := get in
  sleep (update_interval self).

Definition run : list World → Tracker → Tracker * list Event :=
  while_running iteration.
End main.
End Main.

(** ** app.py: [CryptoWebTracker.run] *)
Module App.
Section app.
Context {F : Type} `{FL : !Float64 F} `{QS : !Quicksort F}.
Abbreviation num := (num F).
Abbreviation FrameRow := (FrameRow F).
Abbreviation MarketRow := (MarketRow F).
Abbreviation Stats := (Stats F).
Abbreviation Event := (Event F).
Abbreviation Cmd := (Cmd F).

(** [self.latest_data]: the three keys are [None] until the first update. *)
Record Snapshot := {
  data : option (list MarketRow);
  stats : option Stats;
  last_updated : option string;
}.

Record Tracker := {
  update_interval : nat;
  last_report_hour : option nat;
  latest_data : Snapshot;
}.

(** [CryptoWebTracker(update_interval)]. *)
Definition init (interval : nat) : Tracker :=
  {| update_interval := interval;
     last_report_hour := None;
     latest_data := {| data := None; stats := None; last_updated := None |} |}.

Definition set_last_report_hour (h : nat) (t : Tracker) : Tracker :=
  {| update_interval := update_interval t;
     last_report_hour := Some h;
     latest_data := latest_data t |}.

Definition set_latest_data (s : Snapshot) (t : Tracker) : Tracker :=
  {| update_interval := update_interval t;
     last_report_hour := last_report_hour t;
     latest_data := s |}.

(** The dict assigned to [self.latest_data]. *)
Definition snapshot (df : list MarketRow) (st : Stats) : Snapshot :=
  {| data := Some df; stats := Some st; last_updated := Some (timestamp st) |}.

(** The body of the [try]. *)
Definition cycle (w : World) : Cmd Tracker unit :=
  let* data := call_get_market_data w in
  match data with
  | None | Some [] => continue
  | Some raw_data =>
      let* df := lift (process_data raw_data) in
      let* stats := lift (analyze_market (w_now w) df) in
      let* _ := call_update_excel w df stats in
      let* _ := modify (set_latest_data (snapshot df stats)) in
      let current_hour := w_hour w in
      let* self := get in
      if decide (last_report_hour self ≠ Some current_hour) then
        let* _ := call_make_report w df stats in
        modify (set_last_report_hour current_hour)
      else ret ()
  end.

(** One pass of the [while] body: the [try] statement, then the sleep. *)
Definition iteration (w : World) : Cmd Tracker unit :=
  let* _ := try_except (cycle w) in
  let* self := get in
  sleep (update_interval self).

Definition run : list World → Tracker → Tracker * list Event :=
  while_running iteration.
End app.

Arguments Snapshot F : clear implicits.
Arguments Tracker F : clear implicits.
End App.

(** ** Insertion sort is a sort

    The result is a permutation of the argument, and sorted. *)
Section isort_facts.
Context {A : Type} (le : A → A → bool).

Lemma insert_by_perm x l : insert_by le x l ≡ₚ x :: l.
Proof.
  induction l as [|y l IH]; simpl; [done|].
  destruct (le x y); [done|].
  rewrite IH. apply Permutation_swap.
Qed.

Lemma isort_by_perm l : isort_by le l ≡ₚ l.
Proof.
  induction l as [|x l IH]; simpl; [done|].
  by rewrite insert_by_perm, IH.
Qed.

(** [le] decides a relation [R] that is total in the sense that a failed
    test gives the converse. *)
Context (R : relation A).
Hypothesis le_true : ∀ a b, le a b = true → R a b.
Hypothesis le_false : ∀ a b, le a b = false → R b a.

Lemma insert_by_hdrel a x l :
  R a x → HdRel R a l → HdRel R a (insert_by le x l).
Proof.
  intros Hax Hl. destruct l as [|y l]; simpl; [by constructor|].
  destruct (le x y); constructor; [done|].
  by inv Hl.
Qed.

Lemma insert_by_sorted x l : Sorted R l → Sorted R (insert_by le x l).
Proof.
  induction 1 as [|y l Hl IH Hy]; simpl; [by repeat constructor|].
  destruct (le x y) eqn:E.
  - constructor; [by constructor|]. constructor. by apply le_true.
  - constructor; [done|]. apply insert_by_hdrel; [by apply le_false|done].
Qed.

Lemma isort_by_sorted l : Sorted R (isort_by le l).
Proof. induction l; simpl; [constructor|by apply insert_by_sorted]. Qed.
End isort_facts.

(** ** numpy's quicksort

    [argsort(kind='quicksort')] as numpy's generic code path runs it
    ([aquicksort_] in npysort/quicksort.cpp): [v] holds the keys, [tosort]
    the indices that are permuted; [pl], [pm], [pr], [pi], [pj] are
    positions in [tosort].  A range of more than 17 positions is
    partitioned around the median of its first, middle and last key; a
    shorter one is sorted by insertion.  The fall-back to heapsort when the
    depth limit is used up is not embedded ([None]), and neither are the
    SIMD kernels that numpy dispatches to on some processors, which are
    not stable either. *)
Section npysort.
Context {F : Type} `{FL : !Float64 F}.

(** [a < b] on keys that are not NaN. *)
Definition key_lt (a b : F) : bool := negb (fleb b a).

(** [v[*p]]. *)
Definition key_at (v : list F) (tosort : list nat) (p : nat) : option F :=
  i ← tosort !! p; v !! i.

(** [INTP_SWAP] of the cells [p] and [q]. *)
Definition intp_swap (p q : nat) (tosort : list nat) : list nat :=
  match tosort !! p, tosort !! q with
  | Some a, Some b => <[p := b]> (<[q := a]> tosort)
  | _, _ => tosort
  end.

(** [INTP_SWAP] of the cells [p] and [q] if [LT(v[*p], v[*q])]. *)
Definition swap_if_less (v : list F) (p q : nat) (tosort : list nat) : list nat :=
  match key_at v tosort p, key_at v tosort q with
  | Some x, Some y => if key_lt x y then intp_swap p q tosort else tosort
  | _, _ => tosort
  end.

(** [do { ++pi; } while (LT(v[*pi], vp))], entered with [pi] already
    advanced once, and [do { --pj; } while (LT(vp, v[*pj]))] likewise. *)
Fixpoint scan_up (fuel : nat) (v : list F) (vp : F) (tosort : list nat) (pi : nat) : nat :=
  match fuel with
  | 0 => pi
  | S fuel =>
      match key_at v tosort pi with
      | Some x => if key_lt x vp then scan_up fuel v vp tosort (S pi) else pi
      | None => pi
      end
  end.

Fixpoint scan_down (fuel : nat) (v : list F) (vp : F) (tosort : list nat) (pj : nat) : nat :=
  match fuel with
  | 0 => pj
  | S fuel =>
      match key_at v tosort pj with
      | Some x => if key_lt vp x then scan_down fuel v vp tosort (pred pj) else pj
      | None => pj
      end
  end.

(** The [for (;;)] loop of the partition; gives the final [pi]. *)
Fixpoint exchange (fuel : nat) (v : list F) (vp : F) (tosort : list nat) (pi pj : nat)
    : list nat * nat :=
  match fuel with
  | 0 => (tosort, pi)
  | S fuel =>
      let pi := scan_up (length tosort) v vp tosort (S pi) in
      let pj := scan_down (length tosort) v vp tosort (pred pj) in
      if (pj <=? pi)%nat then (tosort, pi)
      else exchange fuel v vp (intp_swap pi pj tosort) pi pj
  end.

(** One pass of the [while ((pr - pl) > SMALL_QUICKSORT)] loop up to the
    choice of the next range: the median of three goes to [pr - 1], the
    keys are exchanged around it, and it is put at [pi]. *)
Definition partition (v : list F) (tosort : list nat) (pl pr : nat) : list nat * nat :=
  let pm := pl + (pr - pl) / 2 in
  let tosort := swap_if_less v pm pl tosort in
  let tosort := swap_if_less v pr pm tosort in
  let tosort := swap_if_less v pm pl tosort in
  match key_at v tosort pm with
  | Some vp =>
      let tosort := intp_swap pm (pr - 1) tosort in
      let '(tosort, pi) := exchange (length tosort) v vp tosort pl (pr - 1) in
      (intp_swap pi (pr - 1) tosort, pi)
  | None => (tosort, pm)
  end.

(** [while (pj > pl && LT(vp, v[*pk])) { *pj-- = *pk--; } *pj = vi]. *)
Fixpoint shift (fuel : nat) (v : list F) (vi : nat) (vp : F) (tosort : list nat)
    (pl pj : nat) : list nat :=
  match fuel with
  | 0 => <[pj := vi]> tosort
  | S fuel =>
      match key_at v tosort (pj - 1) with
      | Some x =>
          if (pl <? pj)%nat && key_lt vp x
          then shift fuel v vi vp (<[pj := default vi (tosort !! (pj - 1))]> tosort)
                     pl (pj - 1)
          else <[pj := vi]> tosort
      | None => <[pj := vi]> tosort
      end
  end.

(** The insertion sort of the positions [pl .. pr]. *)
Definition insertion (v : list F) (pl pr : nat) (tosort : list nat) : list nat :=
  foldl (λ tosort pi,
           match tosort !! pi with
           | Some vi =>
               match v !! vi with
               | Some vp => shift (length tosort) v vi vp tosort pl pi
               | None => tosort
               end
           | None => tosort
           end)
        tosort (seq (S pl) (pr - pl)).

(** The outer loop with its stack, as a recursion: the smaller part is
    continued ([top = false]), the larger one is pushed and taken up later
    at the top of the loop ([top = true]), where the depth is tested. *)
Fixpoint aquicksort_ (fuel : nat) (v : list F) (top : bool) (cdepth : Z) (pl pr : nat)
    (tosort : list nat) : option (list nat) :=
  match fuel with
  | 0 => None
  | S fuel =>
      if top && (cdepth <? 0)%Z then None
      else if (16 <? pr - pl)%nat then
        let '(tosort, pi) := partition v tosort pl pr in
        if (pi - pl <? pr - pi)%nat then
          tosort ← aquicksort_ fuel v false (cdepth - 1) pl (pi - 1) tosort;
          aquicksort_ fuel v true (cdepth - 1) (pi + 1) pr tosort
        else
          tosort ← aquicksort_ fuel v false (cdepth - 1) (pi + 1) pr tosort;
          aquicksort_ fuel v true (cdepth - 1) pl (pi - 1) tosort
      else Some (insertion v pl pr tosort)
  end.

(** [np.argsort(v, kind='quicksort')]: the depth limit is twice the
    position of the highest bit of the length. *)
Definition npy_aquicksort (v : list F) : option (list nat) :=
  let num := length v in
  if (num <=? 1)%nat then Some (seq 0 num)
  else aquicksort_ num v true (2 * Z.log2 (Z.of_nat num)) 0 (num - 1) (seq 0 num).

(** The rows taken in the order of the index array.  The index array is
    checked to be a permutation that sorts the keys, which is what numpy
    returns; were it not (or where heapsort would take over), the rows are
    sorted by insertion, so that the function is a [Quicksort] without a
    correctness proof of the C algorithm. *)
Definition argsort_quicksort {A} (k : A → F) (l : list A) : list A :=
  let by_insertion := isort_by (λ a b, fleb (k a) (k b)) l in
  match npy_aquicksort (k <$> l) with
  | Some tosort =>
      let out := omap (l !!.) tosort in
      if decide (tosort ≡ₚ seq 0 (length l) ∧ Sorted (λ a b, fleb (k a) (k b) = true) out)
      then out else by_insertion
  | None => by_insertion
  end.

Lemma omap_lookup_S {A} (x : A) (l : list A) (idx : list nat) :
  omap ((x :: l) !!.) (S <$> idx) = omap (l !!.) idx.
Proof.
  induction idx as [|i idx IH]; [done|].
  rewrite fmap_cons. cbn [omap list_omap]. by rewrite IH.
Qed.

Lemma omap_lookup_seq {A} (l : list A) : omap (l !!.) (seq 0 (length l)) = l.
Proof.
  induction l as [|x l IH]; [done|].
  cbn [length seq]. rewrite <-fmap_S_seq. cbn [omap list_omap].
  by rewrite omap_lookup_S, IH.
Qed.

Lemma fleb_sorted {A} (k : A → F) (l : list A) :
  Sorted (λ a b, fleb (k a) (k b) = true) (isort_by (λ a b, fleb (k a) (k b)) l).
Proof.
  apply isort_by_sorted; [done|].
  intros a b Hab. destruct (fleb_total (k a) (k b)); congruence.
Qed.

Lemma argsort_quicksort_perm {A} (k : A → F) (l : list A) : argsort_quicksort k l ≡ₚ l.
Proof.
  unfold argsort_quicksort.
  destruct (npy_aquicksort (k <$> l)) as [tosort|]; [|apply isort_by_perm].
  case_decide as H; [|apply isort_by_perm].
  destruct H as [Hperm _]. rewrite Hperm. by rewrite omap_lookup_seq.
Qed.

Lemma argsort_quicksort_sorted {A} (k : A → F) (l : list A) :
  Sorted (λ a b, fleb (k a) (k b) = true) (argsort_quicksort k l).
Proof.
  unfold argsort_quicksort.
  destruct (npy_aquicksort (k <$> l)) as [tosort|]; [|apply fleb_sorted].
  case_decide as H; [|apply fleb_sorted].
  by destruct H as [_ Hs].
Qed.

(** The default sort of [sort_values] on a numpy without SIMD dispatch. *)
Definition NumpyQS : Quicksort F := {|
  quicksort := @argsort_quicksort;
  quicksort_perm := @argsort_quicksort_perm;
  quicksort_sorted := @argsort_quicksort_sorted;
|}.
End npysort.

(** ** Concrete instances

    Integer-valued scalars and a stable [Quicksort], used to run the
    definitions on concrete rows, and the arithmetic of int64 columns. *)
Module Concrete.

Definition digit (c : Ascii.ascii) : option Z :=
  let n := Z.of_nat (Ascii.nat_of_ascii c) in
  if (48 <=? n)%Z && (n <=? 57)%Z then Some (n - 48)%Z else None.

Fixpoint parse_digits (acc : Z) (s : string) : option Z :=
  match s with
  | EmptyString => Some acc
  | String c s' =>
      match digit c with
      | Some d => parse_digits (10 * acc + d)%Z s'
      | None => None
      end
  end.

(** Decimal integers with an optional sign; anything else is missing. *)
Definition parse_int (s : string) : option Z :=
  match s with
  | EmptyString => None
  | String "-"%char EmptyString => None
  | String "-"%char s' => Z.opp <$> parse_digits 0 s'
  | _ => parse_digits 0 s
  end.

Definition zsum (l : list Z) : Z := foldr Z.add 0%Z l.

Definition zmean (l : list Z) : option Z :=
  match l with
  | [] => None
  | _ :: _ => Some (zsum l / Z.of_nat (length l))%Z
  end.

Definition zmedian (l : list Z) : option Z :=
  let s := isort_by Z.leb l in
  let n := length s in
  if Nat.even n
  then match s !! (n / 2 - 1)%nat, s !! (n / 2)%nat with
       | Some a, Some b => Some ((a + b) / 2)%Z
       | _, _ => None
       end
  else s !! (n / 2)%nat.

Definition zmax (l : list Z) : option Z :=
  match l with [] => None | x :: l' => Some (foldr Z.max x l') end.
Definition zmin (l : list Z) : option Z :=
  match l with [] => None | x :: l' => Some (foldr Z.min x l') end.

Lemma Zleb_total (x y : Z) : (x <=? y)%Z = true ∨ (y <=? x)%Z = true.
Proof. rewrite !Z.leb_le. lia. Qed.

Lemma Zleb_trans (x y z : Z) :
  (x <=? y)%Z = true → (y <=? z)%Z = true → (x <=? z)%Z = true.
Proof. rewrite !Z.leb_le. lia. Qed.

(** Sample arithmetic on cells that are integer literals: exact product
    and sum, mean and median rounded down to an integer. *)
#[export] Instance ZFloat : Float64 Z := {|
  fzero := 0%Z;
  fleb := Z.leb;
  fleb_total := Zleb_total;
  fleb_trans := Zleb_trans;
  fmul := λ x y, Some (x * y)%Z;
  fsum := λ l, Some (zsum l);
  fmean := zmean;
  fmedian := zmedian;
  fmax := zmax;
  fmin := zmin;
  to_numeric := parse_int;
|}.

(** Sample rows. *)
Definition ticker (s p v q c a : string) : Ticker :=
  {| symbol := s; lastPrice := p; volume := v; quoteVolume := q;
     priceChangePercent := c; weightedAvgPrice := a |}.

Definition btc : Pair :=
  {| pair_ticker := ticker "BTCUSDT" "50000" "10" "500000" "2" "49000"; name := "Bitcoin" |}.
Definition eth : Pair :=
  {| pair_ticker := ticker "ETHUSDT" "3000" "100" "300000" "-1" "2950"; name := "Ethereum" |}.
(** Same quoteVolume as [eth]. *)
Definition sol : Pair :=
  {| pair_ticker := ticker "SOLUSDT" "150" "2000" "300000" "3" "149"; name := "Solana" |}.
(** lastPrice and quoteVolume do not parse. *)
Definition odd : Pair :=
  {| pair_ticker := ticker "ODDUSDT" "n/a" "7" "" "0" "1"; name := "ODD" |}.

(** A symbol with a second occurrence of the quote currency. *)
Definition xy : Ticker := ticker "XUSDTYUSDT" "2" "5" "10" "1" "2".

Definition coins : list Coin :=
  [ {| coin_symbol := "btc"; coin_name := "Bitcoin" |};
    {| coin_symbol := "eth"; coin_name := "Ethereum" |};
    {| coin_symbol := "xusdty"; coin_name := "Base asset" |};
    {| coin_symbol := "xy"; coin_name := "Another asset" |} ].

(** Sample passes of the loop: everything works; the ticker endpoint
    answers 503; it answers with no USDT pair; the spreadsheet write
    fails; the document write fails. *)
Definition fine (hour : nat) : World :=
  {| w_running := true;
     w_ticker := Http 200 (Some [pair_ticker eth; pair_ticker btc]);
     w_coins := Http 200 (Some coins);
     w_now := "2024-05-01 10:05";
     w_excel := None;
     w_hour := hour;
     w_report := None |}.

Definition api_down : World :=
  {| w_running := true;
     w_ticker := Http 503 None;
     w_coins := Http 200 (Some coins);
     w_now := "2024-05-01 10:05";
     w_excel := None;
     w_hour := 10;
     w_report := None |}.

Definition no_usdt_pair : World :=
  {| w_running := true;
     w_ticker := Http 200 (Some [ticker "ETHBTC" "1" "1" "1" "1" "1"]);
     w_coins := Http 200 (Some coins);
     w_now := "2024-05-01 10:05";
     w_excel := None;
     w_hour := 10;
     w_report := None |}.

Definition excel_fails : World :=
  {| w_running := true;
     w_ticker := Http 200 (Some [pair_ticker eth; pair_ticker btc]);
     w_coins := Http 200 (Some coins);
     w_now := "2024-05-01 10:05";
     w_excel := Some IOError;
     w_hour := 10;
     w_report := None |}.

Definition report_fails : World :=
  {| w_running := true;
     w_ticker := Http 200 (Some [pair_ticker eth; pair_ticker btc]);
     w_coins := Http 200 (Some coins);
     w_now := "2024-05-01 10:05";
     w_excel := None;
     w_hour := 10;
     w_report := Some IOError |}.

(** Insertion sort, which keeps equal keys in their order. *)
Definition stable_sort {A} (k : A → Z) : list A → list A :=
  isort_by (λ a b, (k a <=? k b)%Z).

Lemma stable_sort_sorted {A} (k : A → Z) l :
  Sorted (λ a b, (k a <=? k b)%Z = true) (stable_sort k l).
Proof.
  apply isort_by_sorted; intros a b; rewrite ?Z.leb_le, ?Z.leb_gt; lia.
Qed.

(** A stable quicksort (what numpy does on short arrays without SIMD). *)
Definition StableQS : Quicksort Z := {|
  quicksort := @stable_sort;
  quicksort_perm := λ A k l, isort_by_perm _ l;
  quicksort_sorted := @stable_sort_sorted;
|}.

(** *** int64 columns

    [pd.to_numeric] gives a column whose cells are all integer literals in
    the range of int64 the dtype int64.  numpy multiplies and sums int64
    values modulo [2^64], without a warning. *)
Definition wrap64 (z : Z) : Z := ((z + 2 ^ 63) mod 2 ^ 64 - 2 ^ 63)%Z.

Definition parse_int64 (s : string) : option Z :=
  z ← parse_int s;
  if decide (- 2 ^ 63 ≤ z < 2 ^ 63)%Z then Some z else None.

(** Every cell of the column [col] is an int64 literal. *)
Definition int64_column (col : Ticker → string) (raw_data : list Pair) : Prop :=
  Forall (λ p, is_Some (parse_int64 (col (pair_ticker p)))) raw_data.

(** The columns [process_data] converts. *)
Definition number_cols : list (Ticker → string) :=
  [lastPrice; volume; quoteVolume; priceChangePercent; weightedAvgPrice].

(** The scalars of a frame whose numeric columns are all int64.  Mean and
    median of an int64 column are float64 values, which this carrier does
    not have; they are rounded down here. *)
Definition Int64 : Float64 Z := {|
  fzero := 0%Z;
  fleb := Z.leb;
  fleb_total := Zleb_total;
  fleb_trans := Zleb_trans;
  fmul := λ x y, Some (wrap64 (x * y));
  fsum := λ l, Some (wrap64 (zsum l));
  fmean := zmean;
  fmedian := zmedian;
  fmax := zmax;
  fmin := zmin;
  to_numeric := parse_int64;
|}.

(** Price and volume are [2^32]. *)
Definition big : Pair :=
  {| pair_ticker := ticker "BIGUSDT" "4294967296" "4294967296" "700000" "1" "4294967296";
     name := "Big" |}.

(** Eighteen pairs, any two neighbours with the same quoteVolume. *)
Definition tied_pair (sym q : string) : Pair :=
  {| pair_ticker := ticker (sym +:+ "USDT") "1" "1" q "0" "1"; name := sym |}.

Definition tied : list Pair :=
  [ tied_pair "ADA" "100"; tied_pair "ALGO" "100";
    tied_pair "ATOM" "200"; tied_pair "AVAX" "200";
    tied_pair "BCH" "300"; tied_pair "BNB" "300";
    tied_pair "DOGE" "400"; tied_pair "DOT" "400";
    tied_pair "EOS" "500"; tied_pair "ETC" "500";
    tied_pair "FIL" "600"; tied_pair "LINK" "600";
    tied_pair "LTC" "700"; tied_pair "NEAR" "700";
    tied_pair "TRX" "800"; tied_pair "UNI" "800";
    tied_pair "XLM" "900"; tied_pair "XRP" "900" ].

End Concrete.

(** ** Further definitions: what the ranking leaves out, the report
    document, the web page *)

Section further.
Context {F : Type} `{FL : !Float64 F} `{QS : !Quicksort F}.
Abbreviation num := (num F).
Abbreviation FrameRow := (FrameRow F).
Abbreviation MarketRow := (MarketRow F).
Abbreviation Stats := (Stats F).
Abbreviation Event := (Event F).

(** The rows of the ranking that [head(50)] drops. *)
Definition left_out (raw_data : list Pair) : list FrameRow :=
  drop 50 (sort_values_desc f_quoteVolume (to_frame <$> raw_data)).

(** [a] may stand before [b] in a frame sorted on [key] in ascending order
    with the missing keys last. *)
Definition asc_order {A} (key : A → num) (a b : A) : Prop :=
  match key a, key b with
  | Some x, Some y => fleb x y = true
  | None, Some _ => False
  | _, None => True
  end.

(** A row whose change is neither above nor below zero: it is zero or
    missing. *)
Definition unchanged (r : MarketRow) : Prop :=
  gt0 (Change_24h r) = false ∧ lt0 (Change_24h r) = false.

#[global] Instance unchanged_dec (r : MarketRow) : Decision (unchanged r).
Proof. unfold unchanged. apply _. Defined.

Definition is_fetch (ev : Event) : bool :=
  match ev with EvFetch => true | _ => false end.

(** How many times [get_market_data] was called. *)
Definition count_fetches (tr : list Event) : nat := length (List.filter is_fetch tr).

(** The pass of [w] gets rows to work on. *)
Definition fetches_rows (w : World) : Prop :=
  falsy (get_market_data (w_ticker w) (w_coins w)) = false.

(** *** Runs of the loops *)

(** The table and the stats a pass works with. *)
Definition aggregated (w : World) (df : list MarketRow) (st : Stats) : Prop :=
  ∃ raw_data,
    get_market_data (w_ticker w) (w_coins w) = Some raw_data ∧
    process_data raw_data = Ok df ∧
    analyze_market (w_now w) df = Ok st.

(** What a pass appends between the spreadsheet write and the sleep. *)
Definition after_excel (df : list MarketRow) (st : Stats) (mid : list Event) : Prop :=
  mid = [] ∨ mid = [EvReport df st] ∨
  ∃ e, mid = [EvCaught e] ∨ mid = [EvReport df st; EvCaught e].

(** A tracker of app.py and one of main.py with the same interval and the
    same hour of the last report. *)
Definition same_loop_state (tA : App.Tracker F) (tM : Main.Tracker) : Prop :=
  App.update_interval tA = Main.update_interval tM ∧
  App.last_report_hour tA = Main.last_report_hour tM.

(** The tracker of main.py with the interval and the report hour of [tA]. *)
Definition Main_of (tA : App.Tracker F) : Main.Tracker :=
  {| Main.update_interval := App.update_interval tA;
     Main.last_report_hour := App.last_report_hour tA |}.

(** *** make_report: the document *)

(** What [make_report] puts into the document, in order.  [Bullet] is a
    paragraph of style 'List Bullet' with its runs, the first one bold. *)
Inductive Block :=
  | Heading (level : nat) (text : string)
  | Paragraph (text : string)
  | Bullet (bold : string) (runs : list string)
  | Picture (path : string).

(** The format specifications [:,.2f] and [:+.2f] on a cell and [str] on a
    count are left to Python. *)
Context (fmt_money fmt_signed : num → string) (fmt_count : nat → string).

Definition newline : string := String (ascii_of_nat 10) EmptyString.

Definition coin_bullet (coin : TopCoin F) : Block :=
  Bullet (top_Name coin +:+ " (" +:+ top_Symbol coin +:+ ")" +:+ newline)
         [ "Market Cap: $" +:+ fmt_money (top_Market_Cap coin) +:+ newline;
           "Price: $" +:+ fmt_money (top_Price coin) ].

Definition change_line (label : string) (c : ChangeRecord F) : Block :=
  Paragraph (label +:+ chg_Name c +:+ " (" +:+ chg_Symbol c +:+ ") with "
             +:+ fmt_signed (chg_Change_24h c) +:+ "%").

(** The blocks of the document [make_report] saves; the chart is drawn by
    [make_chart] right before it is added. *)
Definition report_document (stats : Stats) : list Block :=
  let overview := market_overview stats in
  let price_stats := price_statistics (detailed_analysis stats) in
  let changes := price_changes (detailed_analysis stats) in
  let health := market_health stats in
  [ Heading 0 "Crypto Market Report";
    Paragraph ("Generated: " +:+ timestamp stats);
    Heading 1 "Market Overview";
    Paragraph ("Total Market Cap: $" +:+ fmt_money (total_market_cap overview));
    Paragraph ("24h Volume: $" +:+ fmt_money (total_volume_24h overview));
    Heading 1 "Top 5 Cryptocurrencies by Market Cap" ]
  ++ (coin_bullet <$> top_5_by_market_cap (detailed_analysis stats))
  ++ [ Heading 1 "Price Statistics";
       Paragraph ("Average Price: $" +:+ fmt_money (average_price price_stats));
       Paragraph ("Median Price: $" +:+ fmt_money (ps_median_price price_stats));
       Paragraph ("Highest Price: $" +:+ fmt_money (highest_price price_stats));
       Paragraph ("Lowest Price: $" +:+ fmt_money (lowest_price price_stats));
       Heading 1 "24-Hour Price Changes";
       change_line "Highest Gainer: " (highest_24h_change changes);
       change_line "Biggest Decliner: " (lowest_24h_change changes);
       Paragraph ("Average 24h Change: " +:+ fmt_signed (average_24h_change changes) +:+ "%");
       Heading 1 "Market Health";
       Paragraph ("Coins Up: " +:+ fmt_count (positive_performers health));
       Paragraph ("Coins Down: " +:+ fmt_count (negative_performers health));
       Picture "price_changes.png" ].

Definition is_bullet (b : Block) : bool :=
  match b with Bullet _ _ => true | _ => false end.

(** *** app.py: the page served at [/] *)

(** What the template shows of one record of [data]; the number formats
    are left out. *)
Record PageRow := {
  page_rank : nat;              (* loop.index *)
  page_Name : string;
  page_Symbol : string;
  page_Price : num;
  page_Market_Cap : num;
  page_class : string;          (* class of the 24h-change cell *)
  page_Change : num;
  page_Volume : num;
}.

Definition page_row (i : nat) (coin : MarketRow) : PageRow :=
  {| page_rank := S i;
     page_Name := Name coin;
     page_Symbol := Symbol coin;
     page_Price := Price coin;
     page_Market_Cap := Market_Cap coin;
     page_class := if gt0 (Change_24h coin) then "positive" else "negative";
     page_Change := Change_24h coin;
     page_Volume := Volume_24h coin |}.

End further.

Arguments Block : clear implicits.
Arguments PageRow F : clear implicits.

(** * Properties *)

(** ** Facts about sorted lists *)
Section sorted_facts.
Context {A : Type} (R : relation A).

Lemma StronglySorted_lookup l i j a b :
  StronglySorted R l → i < j → l !! i = Some a → l !! j = Some b → R a b.
Proof.
  intros Hl. revert i j. induction Hl as [|x l Hl IH Hx]; intros i j Hij Hi Hj.
  { by rewrite lookup_nil in Hi. }
  destruct j as [|j]; [lia|]. simpl in Hj.
  destruct i as [|i]; simpl in Hi.
  - injection Hi as ->. rewrite Forall_forall in Hx.
    apply Hx. by eapply list_elem_of_lookup_2.
  - apply (IH i j); [lia|done..].
Qed.

Lemma StronglySorted_take n l : StronglySorted R l → StronglySorted R (take n l).
Proof.
  intros Hl. rewrite <-(take_drop n l) in Hl.
  by apply StronglySorted_app_1_l in Hl.
Qed.

Lemma StronglySorted_trivial l :
  (∀ a b, a ∈ l → b ∈ l → R a b) → StronglySorted R l.
Proof.
  induction l as [|x l IH]; intros H; constructor.
  - apply IH. intros a b Ha Hb. apply H; by right.
  - apply Forall_forall. intros b Hb. apply H; [by left|by right].
Qed.

Lemma StronglySorted_restrict (P : A → Prop) l :
  StronglySorted R l → Forall P l →
  StronglySorted (λ a b, R a b ∧ P a ∧ P b) l.
Proof.
  induction 1 as [|x l Hl IH Hx]; intros HP; constructor.
  - apply IH. by inv HP.
  - inv HP. rewrite Forall_forall in *. naive_solver.
Qed.
End sorted_facts.

(** ** The ranking of [process_data] *)
Section ranking.
Context {F : Type} `{FL : !Float64 F} `{QS : !Quicksort F}.
Abbreviation num := (num F).
Abbreviation FrameRow := (FrameRow F).
Abbreviation MarketRow := (MarketRow F).
Abbreviation Stats := (Stats F).

Lemma dropna_elem {A} (key : A → num) df v r :
  (v, r) ∈ dropna key df ↔ r ∈ df ∧ key r = Some v.
Proof.
  unfold dropna. rewrite list_elem_of_omap. split.
  - intros (x & Hx & Hk). destruct (key x) eqn:E; simplify_eq/=. done.
  - intros [Hr Hk]. exists r. by rewrite Hk.
Qed.

Lemma isna_elem {A} (key : A → num) df r :
  r ∈ isna key df ↔ r ∈ df ∧ key r = None.
Proof. unfold isna. rewrite list_elem_of_filter. tauto. Qed.

Lemma dropna_isna_perm {A} (key : A → num) df :
  (snd <$> dropna key df) ++ isna key df ≡ₚ df.
Proof.
  unfold dropna, isna. induction df as [|r df IH]; [done|].
  rewrite filter_cons. simpl. case_decide as E.
  - rewrite E. simpl. by rewrite <-Permutation_middle, IH.
  - destruct (key r); [|done]. simpl. by rewrite IH.
Qed.

Lemma length_dropna_filter {A} (key : A → num) df :
  length (dropna key df) = length (filter (λ r, is_Some (key r)) df).
Proof.
  unfold dropna. induction df as [|r df IH]; [done|].
  rewrite filter_cons. simpl. case_decide as E.
  - destruct E as [v ->]. simpl. by f_equal.
  - destruct (key r); [|done]. by destruct E.
Qed.

Lemma sorted_part_perm {A} (key : A → num) df :
  sorted_part key df ≡ₚ snd <$> dropna key df.
Proof.
  unfold sorted_part.
  by rewrite reverse_Permutation, quicksort_perm, reverse_Permutation.
Qed.

Lemma sorted_part_elem {A} (key : A → num) df r :
  r ∈ sorted_part key df → r ∈ df ∧ is_Some (key r).
Proof.
  rewrite sorted_part_perm, list_elem_of_fmap.
  intros ([v r'] & -> & H). apply dropna_elem in H as [? ?]. simpl. eauto.
Qed.

Lemma length_sorted_part {A} (key : A → num) df :
  length (sorted_part key df) = length (dropna key df).
Proof. by rewrite sorted_part_perm, length_fmap. Qed.

Lemma sort_values_desc_perm {A} (key : A → num) df :
  sort_values_desc key df ≡ₚ df.
Proof.
  unfold sort_values_desc.
  by rewrite sorted_part_perm, dropna_isna_perm.
Qed.

Lemma sorted_part_sorted {A} (key : A → num) df :
  StronglySorted (desc_order key) (sorted_part key df).
Proof.
  unfold sorted_part.
  set (q := quicksort fst (reverse (dropna key df))).
  set (le := λ a b : F * A, fleb (fst a) (fst b) = true).
  assert (Transitive (flip le)) as Htr.
  { intros a b c Hab Hbc. unfold flip, le in *. by eapply fleb_trans. }
  assert (StronglySorted (flip le) (reverse q)) as Hs.
  { apply Sorted_StronglySorted; [done|]. apply Sorted_reverse, quicksort_sorted. }
  assert (Forall (λ p, key (snd p) = Some (fst p)) (reverse q)) as Hk.
  { apply Forall_forall. intros [v r] Hin.
    unfold q in Hin. rewrite reverse_Permutation, quicksort_perm, reverse_Permutation in Hin.
    by apply dropna_elem in Hin as [_ ?]. }
  eapply StronglySorted_fmap; [|by apply StronglySorted_restrict].
  intros [x a] [y b] (Hle & Ha & Hb). simpl in *.
  unfold desc_order. by rewrite Ha, Hb.
Qed.

Lemma sort_values_desc_sorted {A} (key : A → num) df :
  StronglySorted (desc_order key) (sort_values_desc key df).
Proof.
  unfold sort_values_desc.
  apply StronglySorted_app_2.
  - intros a b Ha Hb. apply sorted_part_elem in Ha as [_ [x Hx]].
    apply isna_elem in Hb as [_ Hb]. unfold desc_order. by rewrite Hx, Hb.
  - apply sorted_part_sorted.
  - apply StronglySorted_trivial. intros a b _ Hb.
    apply isna_elem in Hb as [_ Hb]. unfold desc_order. rewrite Hb. by destruct (key a).
Qed.

Lemma length_top50 raw_data : length (top50 raw_data) = min 50 (length raw_data).
Proof.
  unfold top50. by rewrite length_take, sort_values_desc_perm, length_fmap.
Qed.

Lemma top50_sorted raw_data : StronglySorted (desc_order f_quoteVolume) (top50 raw_data).
Proof. apply StronglySorted_take, sort_values_desc_sorted. Qed.

Lemma top50_not_padded raw_data :
  ∃ rest, top50 raw_data ++ rest ≡ₚ to_frame <$> raw_data.
Proof.
  exists (drop 50 (sort_values_desc f_quoteVolume (to_frame <$> raw_data))).
  unfold top50. by rewrite take_drop, sort_values_desc_perm.
Qed.

Lemma process_data_nonempty raw_data :
  raw_data ≠ [] → process_data raw_data = Ok (final_row <$> top50 raw_data).
Proof. by destruct raw_data. Qed.

Lemma process_data_Ok raw_data df :
  process_data raw_data = Ok df → raw_data ≠ [] ∧ df = final_row <$> top50 raw_data.
Proof. destruct raw_data; [done|]. simpl. intros [= <-]. done. Qed.

End ranking.

(** ** C1, C10: length and order of the table *)
Section ranking_claims.
Context {F : Type} `{FL : !Float64 F} `{QS : !Quicksort F}.
Abbreviation num := (num F).
Abbreviation FrameRow := (FrameRow F).
Abbreviation MarketRow := (MarketRow F).
Abbreviation Stats := (Stats F).

Lemma length_dropna_to_frame raw_data :
  length (dropna f_quoteVolume (to_frame <$> raw_data)) =
  length (filter (λ p, is_Some (to_numeric (quoteVolume (pair_ticker p)))) raw_data).
Proof.
  rewrite length_dropna_filter.
  induction raw_data as [|p l IH]; [done|].
  rewrite fmap_cons, !filter_cons. simpl.
  repeat case_decide; simpl; try done; by rewrite IH.
Qed.

(** C1 (amended): for a non-empty row list [process_data] returns the
    projection of the first 50 rows of the ranking.  The table has
    [min 50 (length raw_data)] rows; the ranked rows are in descending
    order of quoteVolume, those without a quoteVolume last; together with
    the rows that are left out they are the rows of the input (nothing is
    padded), and no row left out has a larger quoteVolume than a row that
    is kept.  Nothing is said about the order of rows with equal
    quoteVolume. *)
Theorem C1_table_length_and_order (raw_data : list Pair) :
  raw_data ≠ [] →
  ∃ table,
    process_data raw_data = Ok table ∧
    table = final_row <$> top50 raw_data ∧
    length table = min 50 (length raw_data) ∧
    StronglySorted (desc_order f_quoteVolume) (top50 raw_data) ∧
    ∃ rest,
      top50 raw_data ++ rest ≡ₚ to_frame <$> raw_data ∧
      ∀ a b, a ∈ top50 raw_data → b ∈ rest → desc_order f_quoteVolume a b.
Proof.
  intros Hne. exists (final_row <$> top50 raw_data).
  split; [by apply process_data_nonempty|].
  split; [done|].
  split; [by rewrite length_fmap, length_top50|].
  split; [apply top50_sorted|].
  exists (drop 50 (sort_values_desc f_quoteVolume (to_frame <$> raw_data))).
  unfold top50. split; [by rewrite take_drop, sort_values_desc_perm|].
  intros a b.
  pose proof (sort_values_desc_sorted f_quoteVolume (to_frame <$> raw_data)) as Hs.
  rewrite <-(take_drop 50 (sort_values_desc _ _)) in Hs.
  by apply StronglySorted_app_1_elem_of.
Qed.

(** C10: the table of [process_data] is the projection of the first 50
    rows of a ranking of all input rows in which a row whose quoteVolume
    did not parse stands after every row whose quoteVolume parsed.  Such a
    row is among the 50 projected rows only when fewer than 50 input rows
    have a parsed quoteVolume; with 50 or more of them every row of the
    table stems from an input row whose quoteVolume parsed. *)
Theorem C10_missing_quoteVolume_last (raw_data : list Pair) (table : list MarketRow) :
  process_data raw_data = Ok table →
  let ranking := sort_values_desc f_quoteVolume (to_frame <$> raw_data) in
  let parsed p := is_Some (to_numeric (quoteVolume (pair_ticker p))) in
  ranking ≡ₚ to_frame <$> raw_data ∧
  table = final_row <$> take 50 ranking ∧
  (∀ i j a b,
     ranking !! i = Some a → ranking !! j = Some b →
     f_quoteVolume a = None → is_Some (f_quoteVolume b) → j < i) ∧
  (∀ r,
     r ∈ take 50 ranking → f_quoteVolume r = None →
     length (filter parsed raw_data) < 50) ∧
  ((50 ≤ length (filter parsed raw_data))%nat →
   ∀ m, m ∈ table →
     ∃ p, p ∈ raw_data ∧ parsed p ∧ m = final_row (to_frame p)).
Proof.
  intros [_ ->]%process_data_Ok ranking parsed.
  assert (∀ r, r ∈ take 50 ranking → f_quoteVolume r = None →
            length (filter parsed raw_data) < 50) as Hkept.
  { intros r Hr Hna. unfold parsed.
    rewrite <-length_dropna_to_frame, <-length_sorted_part.
    unfold ranking, sort_values_desc in Hr.
    rewrite take_app, elem_of_app in Hr. destruct Hr as [Hr|Hr].
    + apply subseteq_take, sorted_part_elem in Hr as [_ [v Hv]]. congruence.
    + destruct (decide (length (sorted_part f_quoteVolume (to_frame <$> raw_data)) < 50))
        as [|Hge]; [done|].
      replace (50 - length (sorted_part f_quoteVolume (to_frame <$> raw_data))) with 0
        in Hr by lia.
      rewrite take_0 in Hr. by apply elem_of_nil in Hr. }
  split; [apply sort_values_desc_perm|]. split; [done|]. split; [|split; [done|]].
  - intros i j a b Hi Hj Ha [y Hb].
    destruct (decide (j < i)) as [|Hge]; [done|]. exfalso.
    destruct (decide (i = j)) as [->|Hne].
    + rewrite Hi in Hj. injection Hj as ->. congruence.
    + assert (desc_order f_quoteVolume a b) as Hord.
      { eapply (StronglySorted_lookup _ ranking i j);
          [apply sort_values_desc_sorted|lia|done..]. }
      unfold desc_order in Hord. by rewrite Ha, Hb in Hord.
  - intros Hfifty m (r & -> & Hr)%list_elem_of_fmap.
    assert (r ∈ to_frame <$> raw_data) as (p & -> & Hp)%list_elem_of_fmap.
    { rewrite <-(sort_values_desc_perm f_quoteVolume). by eapply subseteq_take. }
    exists p. split; [done|]. split; [|done].
    destruct (f_quoteVolume (to_frame p)) as [v|] eqn:E; [by exists v|].
    specialize (Hkept _ Hr E). lia.
Qed.
End ranking_claims.

(** ** C3: the statistics of [analyze_market] *)
Section stats_claims.
Context {F : Type} `{FL : !Float64 F} `{QS : !Quicksort F}.
Abbreviation num := (num F).
Abbreviation FrameRow := (FrameRow F).
Abbreviation MarketRow := (MarketRow F).
Abbreviation Stats := (Stats F).

Lemma length_nlargest {A} n (key : A → num) df :
  length (nlargest n key df) = min n (length df).
Proof.
  unfold nlargest.
  by rewrite length_take, length_app, length_fmap, isort_by_perm,
    <-(length_fmap snd), <-length_app, dropna_isna_perm.
Qed.

Lemma length_nsmallest {A} n (key : A → num) df :
  length (nsmallest n key df) = min n (length df).
Proof.
  unfold nsmallest.
  by rewrite length_take, length_app, length_fmap, isort_by_perm,
    <-(length_fmap snd), <-length_app, dropna_isna_perm.
Qed.

Lemma first_record_Ok {A} (records : list A) :
  0 < length records → ∃ r, first_record records = Ok r.
Proof. destruct records; simpl; [lia|eauto]. Qed.

(** On a non-empty table [analyze_market] returns. *)
Lemma analyze_market_Ok now (df : list MarketRow) :
  df ≠ [] → ∃ st, analyze_market now df = Ok st.
Proof.
  intros Hne. assert (0 < length df) by (destruct df; simpl; [done|lia]).
  unfold analyze_market.
  destruct (first_record_Ok (change_record <$> nlargest 1 Change_24h df)) as [h ->].
  { rewrite length_fmap, length_nlargest. lia. }
  destruct (first_record_Ok (change_record <$> nsmallest 1 Change_24h df)) as [l ->].
  { rewrite length_fmap, length_nsmallest. lia. }
  eauto.
Qed.

(** What the aggregate fields of a returned [stats] are. *)
Lemma analyze_market_inv now (df : list MarketRow) st :
  analyze_market now df = Ok st →
  timestamp st = now ∧
  market_overview st =
    {| total_market_cap := Series_sum (Market_Cap <$> df);
       total_volume_24h := Series_sum (Volume_24h <$> df);
       avg_price := Series_mean (Price <$> df);
       median_price := Series_median (Price <$> df) |} ∧
  market_health st =
    {| positive_performers := length (filter (λ r, gt0 (Change_24h r) = true) df);
       negative_performers := length (filter (λ r, lt0 (Change_24h r) = true) df) |} ∧
  price_statistics (detailed_analysis st) =
    {| average_price := Series_mean (Price <$> df);
       ps_median_price := Series_median (Price <$> df);
       highest_price := Series_max (Price <$> df);
       lowest_price := Series_min (Price <$> df) |} ∧
  average_24h_change (price_changes (detailed_analysis st)) =
    Series_mean (Change_24h <$> df).
Proof.
  unfold analyze_market.
  destruct (first_record _) as [h|]; [|done].
  destruct (first_record _) as [l|]; [|done].
  by intros [= <-].
Qed.

Lemma top50_nonempty raw_data : raw_data ≠ [] → top50 raw_data ≠ [].
Proof.
  intros Hne Htop. pose proof (length_top50 raw_data) as Hlen.
  rewrite Htop in Hlen. destruct raw_data; simpl in *; [done|lia].
Qed.

(** Aggregation of a non-empty row list returns a table and its stats. *)
Lemma aggregate_Ok raw_data now :
  raw_data ≠ [] →
  ∃ df st, process_data raw_data = Ok df ∧ analyze_market now df = Ok st ∧ df ≠ [].
Proof.
  intros Hne.
  assert (final_row <$> top50 raw_data ≠ []) as Hdf.
  { intros H%fmap_nil_inv. by apply (top50_nonempty raw_data). }
  destruct (analyze_market_Ok now _ Hdf) as [st Hst].
  exists (final_row <$> top50 raw_data), st.
  by rewrite process_data_nonempty.
Qed.

Lemma cells_fmap {A} (col : A → num) (df : list A) : cells (col <$> df) = omap col df.
Proof.
  unfold cells. induction df as [|r df IH]; [done|].
  rewrite fmap_cons. simpl. destruct (col r); simpl; by f_equal.
Qed.

(** A missing cell does not take part in a reduction of its column. *)
Lemma cells_parsed {A} (col : A → num) (df : list A) :
  cells (col <$> df) = cells (col <$> filter (λ r, is_Some (col r)) df).
Proof.
  unfold cells. induction df as [|r df IH]; [done|].
  rewrite filter_cons. case_decide as E; simpl.
  - destruct E as [v ->]. simpl. by f_equal.
  - destruct (col r); [by destruct E|done].
Qed.

Lemma filter_parsed {A} (col : A → num) (test : num → bool) (df : list A) :
  test None = false →
  filter (λ r, test (col r) = true) df
  = filter (λ r, test (col r) = true) (filter (λ r, is_Some (col r)) df).
Proof.
  intros Hnone. rewrite list_filter_filter. apply list_filter_iff.
  intros r. split; [|tauto]. intros Ht. split; [done|].
  destruct (col r); [done|congruence].
Qed.

(** C3: aggregation of a non-empty row list returns, whatever fails to
    parse.  A ranked row carries, for each of the five numeric fields, the
    result of parsing that field alone (so it is missing exactly when that
    field does not parse); the row is in the table with these cells; and
    each numeric reduction of the stats over a column is the reduction over
    the rows whose cell in that column is not missing. *)
Theorem C3_unparseable_fields_are_missing (raw_data : list Pair) (now : string) :
  raw_data ≠ [] →
  ∃ df st,
    process_data raw_data = Ok df ∧ analyze_market now df = Ok st ∧
    (∀ r, r ∈ top50 raw_data → ∃ p, p ∈ raw_data ∧ r = to_frame p) ∧
    (∀ p, to_frame p ∈ top50 raw_data →
       let x := pair_ticker p in
       f_quoteVolume (to_frame p) = to_numeric (quoteVolume x) ∧
       ∃ m, m ∈ df ∧
         Price m = to_numeric (lastPrice x) ∧
         Volume_24h m = to_numeric (volume x) ∧
         Change_24h m = to_numeric (priceChangePercent x) ∧
         Avg_Price m = to_numeric (weightedAvgPrice x)) ∧
    let parsed (col : MarketRow → num) := filter (λ m, is_Some (col m)) df in
    total_market_cap (market_overview st) = Series_sum (Market_Cap <$> parsed Market_Cap) ∧
    total_volume_24h (market_overview st) = Series_sum (Volume_24h <$> parsed Volume_24h) ∧
    avg_price (market_overview st) = Series_mean (Price <$> parsed Price) ∧
    median_price (market_overview st) = Series_median (Price <$> parsed Price) ∧
    highest_price (price_statistics (detailed_analysis st))
      = Series_max (Price <$> parsed Price) ∧
    lowest_price (price_statistics (detailed_analysis st))
      = Series_min (Price <$> parsed Price) ∧
    average_24h_change (price_changes (detailed_analysis st))
      = Series_mean (Change_24h <$> parsed Change_24h) ∧
    positive_performers (market_health st)
      = length (filter (λ m, gt0 (Change_24h m) = true) (parsed Change_24h)) ∧
    negative_performers (market_health st)
      = length (filter (λ m, lt0 (Change_24h m) = true) (parsed Change_24h)).
Proof.
  intros Hne. destruct (aggregate_Ok raw_data now Hne) as (df & st & Hdf & Hst & _).
  exists df, st. split; [done|]. split; [done|].
  apply process_data_Ok in Hdf as [_ ->].
  apply analyze_market_inv in Hst as (_ & Hov & Hh & Hps & Hchg).
  split.
  { intros r Hr. unfold top50 in Hr. apply subseteq_take in Hr.
    rewrite sort_values_desc_perm in Hr.
    apply list_elem_of_fmap in Hr as (p & -> & Hp). eauto. }
  split.
  { intros p Hp x. split; [done|].
    exists (final_row (to_frame p)). split; [by apply list_elem_of_fmap_2|done]. }
  intros parsed. rewrite Hov, Hh, Hps, Hchg. simpl.
  unfold Series_sum, Series_mean, Series_median, Series_max, Series_min, parsed.
  rewrite <-!cells_parsed.
  rewrite <-(filter_parsed Change_24h gt0), <-(filter_parsed Change_24h lt0) by done.
  done.
Qed.
End stats_claims.

(** ** The scheduler loops *)
Section loop_facts.
Context {F : Type} `{FL : !Float64 F} `{QS : !Quicksort F}.
Abbreviation num := (num F).
Abbreviation MarketRow := (MarketRow F).
Abbreviation Stats := (Stats F).
Abbreviation Event := (Event F).

Ltac run_cycle :=
  cbv [Main.cycle Main.iteration App.cycle App.iteration
       call_get_market_data call_update_excel call_make_report sleep
       try_except bind ret emit raise continue get modify lift app].

(** The paths through the body of the [try] in app.py. *)
Lemma App_cycle_unfold (w : World) (t : App.Tracker F) :
  App.cycle w t =
  match get_market_data (w_ticker w) (w_coins w) with
  | None | Some [] => (t, [EvFetch], Continue)
  | Some raw_data =>
    match process_data raw_data with
    | Raise e => (t, [EvFetch], Raised e)
    | Ok df =>
      match analyze_market (w_now w) df with
      | Raise e => (t, [EvFetch], Raised e)
      | Ok st =>
        match w_excel w with
        | Some e => (t, [EvFetch; EvExcel df st], Raised e)
        | None =>
          let t1 := App.set_latest_data (App.snapshot df st) t in
          if decide (App.last_report_hour t = Some (w_hour w))
          then (t1, [EvFetch; EvExcel df st], Normal ())
          else match w_report w with
               | Some e => (t1, [EvFetch; EvExcel df st; EvReport df st], Raised e)
               | None => (App.set_last_report_hour (w_hour w) t1,
                          [EvFetch; EvExcel df st; EvReport df st], Normal ())
               end
        end
      end
    end
  end.
Proof.
  run_cycle.
  destruct (get_market_data _ _) as [[|p raw]|]; [done| |done].
  destruct (process_data _); [|done].
  destruct (analyze_market _ _); [|done].
  destruct (w_excel w); [done|]. simpl.
  repeat case_decide; try done; by destruct (w_report w).
Qed.

(** The paths through the body of the [try] in main.py. *)
Lemma Main_cycle_unfold (w : World) (t : Main.Tracker) :
  Main.cycle w t =
  match get_market_data (w_ticker w) (w_coins w) with
  | None | Some [] => (t, [EvFetch], Continue)
  | Some raw_data =>
    match process_data raw_data with
    | Raise e => (t, [EvFetch], Raised e)
    | Ok df =>
      match analyze_market (w_now w) df with
      | Raise e => (t, [EvFetch], Raised e)
      | Ok st =>
        match w_excel w with
        | Some e => (t, [EvFetch; EvExcel df st], Raised e)
        | None =>
          if decide (Main.last_report_hour t = Some (w_hour w))
          then (t, [EvFetch; EvExcel df st], Normal ())
          else match w_report w with
               | Some e => (t, [EvFetch; EvExcel df st; EvReport df st], Raised e)
               | None => (Main.set_last_report_hour (w_hour w) t,
                          [EvFetch; EvExcel df st; EvReport df st], Normal ())
               end
        end
      end
    end
  end.
Proof.
  run_cycle.
  destruct (get_market_data _ _) as [[|p raw]|]; [done| |done].
  destruct (process_data _); [|done].
  destruct (analyze_market _ _); [|done].
  destruct (w_excel w); [done|]. simpl.
  repeat case_decide; try done; by destruct (w_report w).
Qed.

(** One pass in terms of the [try] body: an exception is caught and the
    sleep follows; [continue] skips what is left of the pass. *)
Lemma App_iteration_unfold (w : World) (t : App.Tracker F) :
  App.iteration w t =
  match App.cycle w t with
  | (t', tr, Normal _) => (t', tr ++ [EvSleep (App.update_interval t')], Normal ())
  | (t', tr, Raised e) =>
      (t', (tr ++ [EvCaught e]) ++ [EvSleep (App.update_interval t')], Normal ())
  | (t', tr, Continue) => (t', tr, Continue)
  end.
Proof.
  unfold App.iteration, try_except, bind, get, sleep, emit.
  destruct (App.cycle w t) as [[t' tr] [[]|e|]]; simpl; by rewrite ?app_nil_l.
Qed.

Lemma Main_iteration_unfold (w : World) (t : Main.Tracker) :
  Main.iteration (F := F) w t =
  match Main.cycle w t with
  | (t', tr, Normal _) => (t', tr ++ [EvSleep (Main.update_interval t')], Normal ())
  | (t', tr, Raised e) =>
      (t', (tr ++ [EvCaught e]) ++ [EvSleep (Main.update_interval t')], Normal ())
  | (t', tr, Continue) => (t', tr, Continue)
  end.
Proof.
  unfold Main.iteration, try_except, bind, get, sleep, emit.
  destruct (Main.cycle w t) as [[t' tr] [[]|e|]]; simpl; by rewrite ?app_nil_l.
Qed.

(** No exception leaves a pass of the loop. *)
Lemma App_iteration_caught (w : World) (t : App.Tracker F) :
  ∃ t' tr sg, App.iteration w t = (t', tr, sg) ∧ ∀ e, sg ≠ Raised e.
Proof.
  rewrite App_iteration_unfold.
  destruct (App.cycle w t) as [[t' tr] [[]|e|]]; eauto 6.
Qed.

(** So the loop goes on to the next pass. *)
Lemma App_run_cons (w : World) (ws : list World) (t : App.Tracker F) :
  w_running w = true →
  ∃ t' tr sg, App.iteration w t = (t', tr, sg) ∧
    App.run (w :: ws) t = ((App.run ws t').1, tr ++ (App.run ws t').2).
Proof.
  intros Hrun. destruct (App_iteration_caught w t) as (t' & tr & sg & Hit & Hsg).
  exists t', tr, sg. split; [done|].
  unfold App.run. simpl. rewrite Hrun, Hit.
  destruct sg as [[]|e|]; [|by destruct (Hsg e)|];
    by destruct (while_running App.iteration ws t').
Qed.

(** A failed or empty fetch: the pass ends at [continue]. *)
Lemma App_cycle_falsy (w : World) (t : App.Tracker F) :
  falsy (get_market_data (w_ticker w) (w_coins w)) = true →
  App.cycle w t = (t, [EvFetch], Continue) ∧
  App.iteration w t = (t, [EvFetch], Continue).
Proof.
  intros Hf. rewrite App_iteration_unfold, App_cycle_unfold.
  by destruct (get_market_data _ _) as [[|]|].
Qed.

Lemma Main_cycle_falsy (w : World) (t : Main.Tracker) :
  falsy (get_market_data (w_ticker w) (w_coins w)) = true →
  Main.cycle (F := F) w t = (t, [EvFetch], Continue) ∧
  Main.iteration (F := F) w t = (t, [EvFetch], Continue).
Proof.
  intros Hf. rewrite Main_iteration_unfold, Main_cycle_unfold.
  by destruct (get_market_data _ _) as [[|]|].
Qed.
End loop_facts.

(** ** C4 - C7, C9: claims about the loop *)
Section loop_claims.
Context {F : Type} `{FL : !Float64 F} `{QS : !Quicksort F}.
Abbreviation num := (num F).
Abbreviation MarketRow := (MarketRow F).
Abbreviation Stats := (Stats F).
Abbreviation Event := (Event F).

(** C4 (amended): on the empty row list [process_data] raises [KeyError]
    for the first numeric column, and [analyze_market] on an empty table
    raises [IndexError]; neither returns a table or stats.  The loop never
    aggregates an empty row list: when the fetch returns one, the pass
    ends at [continue] with the tracker unchanged and nothing published. *)
Theorem C4_empty_input_is_guarded :
  process_data [] = Raise (KeyError "lastPrice") ∧
  (∀ now, analyze_market now [] = Raise IndexError) ∧
  (∀ (w : World) (t : App.Tracker F),
     get_market_data (w_ticker w) (w_coins w) = Some [] →
     App.cycle w t = (t, [EvFetch], Continue)) ∧
  (∀ (w : World) (t : Main.Tracker),
     get_market_data (w_ticker w) (w_coins w) = Some [] →
     Main.cycle (F := F) w t = (t, [EvFetch], Continue)).
Proof.
  split; [done|]. split; [done|]. split.
  - intros w t H. apply App_cycle_falsy. by rewrite H.
  - intros w t H. apply Main_cycle_falsy. by rewrite H.
Qed.

(** C5 (what the code does): when the fetch fails or returns no row, the
    pass ends at [continue]: nothing is aggregated or published, the
    tracker is unchanged, and [time.sleep] is not called; the next pass of
    the loop starts right after the fetch. *)
Theorem C5_failed_fetch_skips_sleep (w : World) (ws : list World) :
  w_running w = true →
  falsy (get_market_data (w_ticker w) (w_coins w)) = true →
  (∀ t : Main.Tracker,
     Main.iteration (F := F) w t = (t, [EvFetch], Continue) ∧
     Main.run (F := F) (w :: ws) t = ((Main.run ws t).1, EvFetch :: (Main.run ws t).2)) ∧
  (∀ t : App.Tracker F,
     App.iteration w t = (t, [EvFetch], Continue) ∧
     App.run (w :: ws) t = ((App.run ws t).1, EvFetch :: (App.run ws t).2)) ∧
  count_sleeps ([EvFetch] : list Event) = 0.
Proof.
  intros Hrun Hf. split; [|split; [|done]].
  - intros t. destruct (Main_cycle_falsy w t Hf) as [_ Hit]. split; [done|].
    unfold Main.run. simpl. rewrite Hrun, Hit.
    by destruct (while_running Main.iteration ws t).
  - intros t. destruct (App_cycle_falsy w t Hf) as [_ Hit]. split; [done|].
    unfold App.run. simpl. rewrite Hrun, Hit.
    by destruct (while_running App.iteration ws t).
Qed.

(** C6 (amended): in a pass whose rows were fetched and aggregated, a
    failing document write is caught with [latest_data] already replaced
    by this pass's table and stats; a failing spreadsheet write is caught
    with [latest_data] left as it was before the pass.  In both cases the
    pass ends normally, after the sleep, and the loop goes on to the next
    pass. *)
Theorem C6_write_failures (w : World) (t : App.Tracker F)
    (raw_data : list Pair) (df : list MarketRow) (st : Stats) (e : Exn) :
  get_market_data (w_ticker w) (w_coins w) = Some raw_data →
  process_data raw_data = Ok df →
  analyze_market (w_now w) df = Ok st →
  (w_excel w = None → w_report w = Some e →
   App.last_report_hour t ≠ Some (w_hour w) →
   ∃ t', App.iteration w t =
           (t', [EvFetch; EvExcel df st; EvReport df st; EvCaught e;
                 EvSleep (App.update_interval t)], Normal ()) ∧
         App.latest_data t' = App.snapshot df st) ∧
  (w_excel w = Some e →
   ∃ t', App.iteration w t =
           (t', [EvFetch; EvExcel df st; EvCaught e;
                 EvSleep (App.update_interval t)], Normal ()) ∧
         App.latest_data t' = App.latest_data t) ∧
  (∀ ws, w_running w = true →
     ∃ t' tr sg, App.iteration w t = (t', tr, sg) ∧
       App.run (w :: ws) t = ((App.run ws t').1, tr ++ (App.run ws t').2)).
Proof.
  intros Hget Hdf Hst.
  assert (raw_data ≠ []) as Hne by (by apply process_data_Ok in Hdf as [? _]).
  split; [|split].
  - intros Hx Hr Hh. rewrite App_iteration_unfold, App_cycle_unfold.
    rewrite Hget, Hdf, Hst, Hx, Hr. destruct raw_data; [done|].
    rewrite decide_False by done. simpl. eauto.
  - intros Hx. rewrite App_iteration_unfold, App_cycle_unfold.
    rewrite Hget, Hdf, Hst, Hx. destruct raw_data; [done|]. simpl. eauto.
  - intros ws Hrun. by apply App_run_cons.
Qed.

(** C7 (amended): an exception that ends the body of the [try] is caught
    by the handler of the loop, and the pass goes on to the sleep.  When
    the exception was raised before the document write, [latest_data]
    after the pass is the one from before; when it was raised by the
    document write, [latest_data] has already been replaced by this
    pass's table and stats.  A failed or empty fetch leaves the tracker
    unchanged. *)
Theorem C7_exceptions_are_caught (w : World) (t : App.Tracker F) :
  (falsy (get_market_data (w_ticker w) (w_coins w)) = true →
   App.iteration w t = (t, [EvFetch], Continue)) ∧
  (∀ (t' : App.Tracker F) (tr : list Event) (e : Exn),
     App.cycle w t = (t', tr, Raised e) →
     App.iteration w t
       = (t', (tr ++ [EvCaught e]) ++ [EvSleep (App.update_interval t')], Normal ()) ∧
     ((count_reports tr = 0 ∧ App.latest_data t' = App.latest_data t) ∨
      (count_reports tr = 1 ∧ w_report w = Some e ∧
       ∃ raw_data df st,
         get_market_data (w_ticker w) (w_coins w) = Some raw_data ∧
         process_data raw_data = Ok df ∧
         analyze_market (w_now w) df = Ok st ∧
         App.latest_data t' = App.snapshot df st))).
Proof.
  split; [intros Hf; by apply App_cycle_falsy|].
  intros t' tr e Hc. split; [by rewrite App_iteration_unfold, Hc|].
  rewrite App_cycle_unfold in Hc.
  destruct (get_market_data _ _) as [[|p raw]|] eqn:Hget; [done| |done].
  destruct (process_data _) as [df|] eqn:Hdf; [|left; by simplify_eq].
  destruct (analyze_market _ _) as [st|] eqn:Hst; [|left; by simplify_eq].
  destruct (w_excel w); [left; by simplify_eq|].
  simpl in Hc. case_decide; [done|].
  destruct (w_report w) eqn:Hr; [|done].
  right. simplify_eq. split; [done|]. split; [done|]. eauto 7.
Qed.

(** What a pass that ends normally did about the document. *)
Lemma App_cycle_Normal (w : World) (t t' : App.Tracker F) (tr : list Event) :
  App.cycle w t = (t', tr, Normal ()) →
  App.last_report_hour t' = Some (w_hour w) ∧
  count_reports tr = (if decide (App.last_report_hour t = Some (w_hour w)) then 0 else 1).
Proof.
  rewrite App_cycle_unfold. intros Hc.
  destruct (get_market_data _ _) as [[|p raw]|]; [done| |done].
  destruct (process_data _); [|done]. destruct (analyze_market _ _); [|done].
  destruct (w_excel w); [done|]. simpl in Hc.
  case_decide; [by simplify_eq|].
  destruct (w_report w); by simplify_eq.
Qed.

Lemma Main_cycle_Normal (w : World) (t t' : Main.Tracker) (tr : list Event) :
  Main.cycle w t = (t', tr, Normal ()) →
  Main.last_report_hour t' = Some (w_hour w) ∧
  count_reports tr = (if decide (Main.last_report_hour t = Some (w_hour w)) then 0 else 1).
Proof.
  rewrite Main_cycle_unfold. intros Hc.
  destruct (get_market_data _ _) as [[|p raw]|]; [done| |done].
  destruct (process_data _); [|done]. destruct (analyze_market _ _); [|done].
  destruct (w_excel w); [done|]. simpl in Hc.
  case_decide; [by simplify_eq|].
  destruct (w_report w); by simplify_eq.
Qed.

(** C9 (amended), for both loops: of two consecutive passes that end
    normally in the same hour, the second writes no document, and the
    first writes exactly one when [last_report_hour] differed from that
    hour before it, and none when it was that hour already.  A pass that
    ends normally in an hour different from [last_report_hour] writes
    exactly one document and sets [last_report_hour] to that hour. *)
Theorem C9_one_document_per_hour :
  (∀ (w1 w2 : World) (t t1 t2 : App.Tracker F) (tr1 tr2 : list Event),
     App.cycle w1 t = (t1, tr1, Normal ()) →
     App.cycle w2 t1 = (t2, tr2, Normal ()) →
     w_hour w1 = w_hour w2 →
     count_reports tr1
       = (if decide (App.last_report_hour t = Some (w_hour w1)) then 0 else 1) ∧
     count_reports tr2 = 0) ∧
  (∀ (w : World) (t t' : App.Tracker F) (tr : list Event),
     App.cycle w t = (t', tr, Normal ()) →
     App.last_report_hour t ≠ Some (w_hour w) →
     count_reports tr = 1 ∧ App.last_report_hour t' = Some (w_hour w)) ∧
  (∀ (w1 w2 : World) (t t1 t2 : Main.Tracker) (tr1 tr2 : list Event),
     Main.cycle w1 t = (t1, tr1, Normal ()) →
     Main.cycle w2 t1 = (t2, tr2, Normal ()) →
     w_hour w1 = w_hour w2 →
     count_reports tr1
       = (if decide (Main.last_report_hour t = Some (w_hour w1)) then 0 else 1) ∧
     count_reports tr2 = 0) ∧
  (∀ (w : World) (t t' : Main.Tracker) (tr : list Event),
     Main.cycle w t = (t', tr, Normal ()) →
     Main.last_report_hour t ≠ Some (w_hour w) →
     count_reports tr = 1 ∧ Main.last_report_hour t' = Some (w_hour w)).
Proof.
  split; [|split; [|split]].
  - intros w1 w2 t t1 t2 tr1 tr2 H1 H2 Hh.
    apply App_cycle_Normal in H1 as [Hm ->]. apply App_cycle_Normal in H2 as [_ ->].
    split; [done|]. rewrite decide_True; [done|congruence].
  - intros w t t' tr H Hne. apply App_cycle_Normal in H as [Hm ->].
    by rewrite decide_False.
  - intros w1 w2 t t1 t2 tr1 tr2 H1 H2 Hh.
    apply Main_cycle_Normal in H1 as [Hm ->]. apply Main_cycle_Normal in H2 as [_ ->].
    split; [done|]. rewrite decide_True; [done|congruence].
  - intros w t t' tr H Hne. apply Main_cycle_Normal in H as [Hm ->].
    by rewrite decide_False.
Qed.
End loop_claims.

Import Concrete.

(** C1 as stated fails on ties: the eighteen rows of [tied] come in pairs
    of equal quoteVolume, and the default quicksort of [sort_values], here
    numpy's generic one, does not leave every pair in the order of the
    input (the table lists XRP, the last row of the input, before XLM). *)
Lemma C1_ties_counterexample :
  length tied = 18 ∧
  (∃ table, process_data (QS := NumpyQS) tied = Ok table ∧ length table = 18) ∧
  ¬ ties_keep_order (to_frame <$> tied) (top50 (QS := NumpyQS) tied).
Proof.
  split; [done|]. split; [eexists; split; [done|]; by vm_compute|].
  intros H.
  destruct (H 0 1 (to_frame (tied_pair "XRP" "900")) (to_frame (tied_pair "XLM" "900")))
    as (i' & j' & Hlt & Hi & Hj); [lia|by vm_compute..|].
  assert (NoDup (f_symbol <$> (to_frame <$> tied))) as Hnd
    by (apply (bool_decide_unpack _); by vm_compute).
  assert (i' = 17).
  { apply (NoDup_lookup _ _ _ (f_symbol (to_frame (tied_pair "XRP" "900"))) Hnd);
      [by rewrite list_lookup_fmap, Hi|by vm_compute]. }
  assert (j' = 16).
  { apply (NoDup_lookup _ _ _ (f_symbol (to_frame (tied_pair "XLM" "900"))) Hnd);
      [by rewrite list_lookup_fmap, Hj|by vm_compute]. }
  lia.
Qed.

Lemma C1_table_length_and_order_witness :
  let raw_data := [eth; btc; odd; sol] in
  raw_data ≠ [] ∧
  ∃ table,
    process_data (QS := StableQS) raw_data = Ok table ∧
    table = final_row <$> top50 (QS := StableQS) raw_data ∧
    length table = min 50 (length raw_data) ∧
    StronglySorted (desc_order f_quoteVolume) (top50 (QS := StableQS) raw_data) ∧
    ∃ rest,
      top50 (QS := StableQS) raw_data ++ rest ≡ₚ to_frame <$> raw_data ∧
      ∀ a b, a ∈ top50 (QS := StableQS) raw_data → b ∈ rest →
        desc_order f_quoteVolume a b.
Proof.
  split; [done|].
  apply (C1_table_length_and_order (QS := StableQS) [eth; btc; odd; sol]).
  done.
Defined.

Lemma C10_missing_quoteVolume_last_witness :
  let raw_data := [odd; eth; btc] in
  let ranking := sort_values_desc (QS := StableQS) f_quoteVolume (to_frame <$> raw_data) in
  let table := final_row <$> [to_frame btc; to_frame eth; to_frame odd] in
  process_data (QS := StableQS) raw_data = Ok table ∧
  table = final_row <$> take 50 ranking ∧
  ranking !! 2 = Some (to_frame odd) ∧
  ranking !! 0 = Some (to_frame btc) ∧
  0 < 2 ∧
  length (filter (λ p, is_Some (to_numeric (quoteVolume (pair_ticker p)))) raw_data) < 50.
Proof.
  assert (process_data (QS := StableQS) [odd; eth; btc]
          = Ok (final_row <$> [to_frame btc; to_frame eth; to_frame odd])) as Hdf
    by (by vm_compute).
  destruct (C10_missing_quoteVolume_last (QS := StableQS) [odd; eth; btc] _ Hdf)
    as (_ & Htable & Hlast & Hkept & _).
  split; [exact Hdf|]. split; [exact Htable|].
  split; [by vm_compute|]. split; [by vm_compute|].
  split.
  - apply (Hlast 2 0 (to_frame odd) (to_frame btc));
      [by vm_compute|by vm_compute|by vm_compute|by eexists].
  - apply (Hkept (to_frame odd)); [|by vm_compute].
    vm_compute. do 2 right. left.
Defined.

(** The rows the sample passes fetch, and what aggregation makes of them. *)
Lemma fine_fetch hour :
  get_market_data (w_ticker (fine hour)) (w_coins (fine hour)) = Some [eth; btc].
Proof. by vm_compute. Qed.

(** C2 fails in the code when the numeric fields are all integer
    literals: the columns are int64 then, and the product of price and
    volume and its sum are taken modulo [2^64].  For a price and a volume of [2^32] the Market
    Cap of the row is 0 and not [2^64], and [total_market_cap] is the
    Market Cap of the other row alone. *)
Theorem C2_int64_market_cap_wraps :
  let raw_data := [big; eth] in
  Forall (λ col, int64_column col raw_data) number_cols ∧
  ∃ table st,
    process_data (FL := Int64) (QS := NumpyQS) raw_data = Ok table ∧
    analyze_market (FL := Int64) "2024-05-01 10:05" table = Ok st ∧
    Symbol <$> table = ["BIG"; "ETH"] ∧
    Price <$> table = [Some 4294967296; Some 3000]%Z ∧
    Volume_24h <$> table = [Some 4294967296; Some 100]%Z ∧
    Market_Cap <$> table = [Some 0; Some 300000]%Z ∧
    (4294967296 * 4294967296 = 2 ^ 64)%Z ∧
    total_market_cap (market_overview st) = Some 300000%Z.
Proof.
  split; [unfold int64_column; apply (bool_decide_unpack _); by vm_compute|].
  eexists _, _. split; [by vm_compute|]. split; [by vm_compute|].
  repeat split; by vm_compute.
Qed.

Lemma C3_unparseable_fields_are_missing_witness :
  [eth; odd; btc] ≠ [] ∧
  ∃ df st,
    process_data (QS := StableQS) [eth; odd; btc] = Ok df ∧
    analyze_market "2024-05-01 10:05" df = Ok st ∧
    Price <$> df = [Some 50000%Z; Some 3000%Z; None] ∧
    avg_price (market_overview st) = fmean [50000%Z; 3000%Z] ∧
    avg_price (market_overview st)
      = Series_mean (Price <$> filter (λ m, is_Some (Price m)) df).
Proof.
  split; [done|].
  destruct (C3_unparseable_fields_are_missing (QS := StableQS)
              [eth; odd; btc] "2024-05-01 10:05")
    as (df & st & Hdf & Hst & _ & _ & _ & _ & Havg & _); [done|].
  exists df, st. split; [done|]. split; [done|].
  vm_compute in Hdf. injection Hdf as <-.
  vm_compute in Hst. injection Hst as <-.
  split; [by vm_compute|]. split; [by vm_compute|]. exact Havg.
Defined.

(** C4 as stated fails: on the empty row list no table is returned. *)
Lemma C4_empty_input_counterexample :
  ¬ ∃ df st,
      process_data (QS := StableQS) [] = Ok df ∧
      analyze_market "2024-05-01 10:05" df = Ok st.
Proof. by intros (df & st & Hdf & _). Qed.

Lemma C4_empty_input_is_guarded_witness :
  get_market_data (w_ticker no_usdt_pair) (w_coins no_usdt_pair) = Some [] ∧
  App.cycle (QS := StableQS) no_usdt_pair (App.init 300)
    = (App.init 300, [EvFetch], Continue) ∧
  Main.cycle (QS := StableQS) no_usdt_pair (Main.init 300)
    = (Main.init 300, [EvFetch], Continue).
Proof.
  destruct (C4_empty_input_is_guarded (QS := StableQS)) as (_ & _ & HApp & HMain).
  split; [by vm_compute|]. split; [apply HApp|apply HMain]; by vm_compute.
Defined.

Lemma C5_failed_fetch_skips_sleep_witness :
  w_running api_down = true ∧
  falsy (get_market_data (w_ticker api_down) (w_coins api_down)) = true ∧
  Main.run (QS := StableQS) [api_down; api_down] (Main.init 300)
    = (Main.init 300, [EvFetch; EvFetch]) ∧
  App.run (QS := StableQS) [api_down; api_down] (App.init 300)
    = (App.init 300, [EvFetch; EvFetch]).
Proof.
  split; [done|]. split; [by vm_compute|].
  destruct (C5_failed_fetch_skips_sleep (QS := StableQS) api_down [api_down])
    as (HMain & HApp & _); [done|by vm_compute|].
  destruct (HMain (Main.init 300)) as [_ ->].
  destruct (HApp (App.init 300)) as [_ ->].
  split; by vm_compute.
Defined.

(** C6 as stated fails for the spreadsheet: the write raises before
    [latest_data] is assigned, so after the pass it still holds what it held
    before (here nothing), not this pass's table and stats. *)
Lemma C6_spreadsheet_failure_counterexample :
  ∃ df st t' tr,
    process_data (QS := StableQS) [eth; btc] = Ok df ∧
    analyze_market (w_now excel_fails) df = Ok st ∧
    App.iteration (QS := StableQS) excel_fails (App.init 300) = (t', tr, Normal ()) ∧
    tr = [EvFetch; EvExcel df st; EvCaught IOError; EvSleep 300] ∧
    App.latest_data t' = App.latest_data (App.init 300) ∧
    App.latest_data t' ≠ App.snapshot df st.
Proof.
  eexists _, _, _, _. split; [by vm_compute|]. split; [by vm_compute|].
  split; [by vm_compute|]. split; [done|]. split; [done|]. by vm_compute.
Qed.

Lemma C6_write_failures_witness :
  (∃ df st t',
     App.iteration (QS := StableQS) report_fails (App.init 300)
       = (t', [EvFetch; EvExcel df st; EvReport df st; EvCaught IOError; EvSleep 300],
          Normal ()) ∧
     App.latest_data t' = App.snapshot df st) ∧
  (∃ df st t',
     App.iteration (QS := StableQS) excel_fails (App.init 300)
       = (t', [EvFetch; EvExcel df st; EvCaught IOError; EvSleep 300], Normal ()) ∧
     App.latest_data t' = App.latest_data (App.init 300)).
Proof.
  split.
  - destruct (C6_write_failures (QS := StableQS) report_fails (App.init 300)
                [eth; btc] _ _ IOError eq_refl eq_refl eq_refl) as (H & _ & _).
    destruct H as (t' & Hit & Hsnap); [done..|]. eauto.
  - destruct (C6_write_failures (QS := StableQS) excel_fails (App.init 300)
                [eth; btc] _ _ IOError eq_refl eq_refl eq_refl) as (_ & H & _).
    destruct H as (t' & Hit & Hsnap); [done|]. eauto.
Defined.

(** C7 as stated fails for the document write: [make_report] raises after
    [latest_data] was assigned, so the pass that is said to have produced
    nothing has replaced the snapshot. *)
Lemma C7_document_failure_counterexample :
  ∃ df st t' tr,
    process_data (QS := StableQS) [eth; btc] = Ok df ∧
    analyze_market (w_now report_fails) df = Ok st ∧
    App.cycle (QS := StableQS) report_fails (App.init 300) = (t', tr, Raised IOError) ∧
    App.latest_data t' = App.snapshot df st ∧
    App.latest_data t' ≠ App.latest_data (App.init 300).
Proof.
  eexists _, _, _, _. split; [by vm_compute|]. split; [by vm_compute|].
  split; [by vm_compute|]. split; [done|]. by vm_compute.
Qed.

Lemma C7_exceptions_are_caught_witness :
  falsy (get_market_data (w_ticker api_down) (w_coins api_down)) = true ∧
  App.iteration (QS := StableQS) api_down (App.init 300)
    = (App.init 300, [EvFetch], Continue) ∧
  ∃ t' tr,
    App.cycle (QS := StableQS) excel_fails (App.init 300) = (t', tr, Raised IOError) ∧
    App.iteration (QS := StableQS) excel_fails (App.init 300)
      = (t', (tr ++ [EvCaught IOError]) ++ [EvSleep (App.update_interval t')], Normal ()) ∧
    App.latest_data t' = App.latest_data (App.init 300).
Proof.
  split; [by vm_compute|]. split.
  - apply (C7_exceptions_are_caught (QS := StableQS) api_down (App.init 300)).
    by vm_compute.
  - eassert (App.cycle (QS := StableQS) excel_fails (App.init 300) = (_, _, Raised IOError))
      as Hc by (by vm_compute).
    destruct (C7_exceptions_are_caught (QS := StableQS) excel_fails (App.init 300))
      as [_ Hexc].
    destruct (Hexc _ _ _ Hc) as [Hit _].
    eexists _, _. split; [exact Hc|]. split; [exact Hit|done].
Defined.

(** C9 as stated fails for two consecutive passes that are not the first of
    their hour: after a first pass at 10 o'clock, the second and the third
    pass end normally in the same hour and neither writes a document. *)
Lemma C9_same_hour_counterexample :
  ∃ t1 tr1 t2 tr2 t3 tr3,
    App.cycle (QS := StableQS) (fine 10) (App.init 300) = (t1, tr1, Normal ()) ∧
    App.cycle (QS := StableQS) (fine 10) t1 = (t2, tr2, Normal ()) ∧
    App.cycle (QS := StableQS) (fine 10) t2 = (t3, tr3, Normal ()) ∧
    count_reports tr1 = 1 ∧
    count_reports (tr2 ++ tr3) = 0.
Proof.
  eexists _, _, _, _, _, _. split; [by vm_compute|]. split; [by vm_compute|].
  split; [by vm_compute|]. split; by vm_compute.
Qed.

Lemma C9_one_document_per_hour_witness :
  ∃ t1 tr1 t2 tr2 t3 tr3,
    App.cycle (QS := StableQS) (fine 10) (App.init 300) = (t1, tr1, Normal ()) ∧
    App.cycle (QS := StableQS) (fine 10) t1 = (t2, tr2, Normal ()) ∧
    App.cycle (QS := StableQS) (fine 11) t2 = (t3, tr3, Normal ()) ∧
    count_reports tr1 = 1 ∧ count_reports tr2 = 0 ∧
    count_reports tr3 = 1 ∧ App.last_report_hour t3 = Some 11.
Proof.
  destruct (C9_one_document_per_hour (QS := StableQS)) as (Hpair & Hnew & _ & _).
  eassert (App.cycle (QS := StableQS) (fine 10) (App.init 300) = (_, _, Normal ()))
    as E1 by (by vm_compute).
  match type of E1 with _ = (?t1, _, _) =>
    eassert (App.cycle (QS := StableQS) (fine 10) t1 = (_, _, Normal ()))
      as E2 by (by vm_compute)
  end.
  match type of E2 with _ = (?t2, _, _) =>
    eassert (App.cycle (QS := StableQS) (fine 11) t2 = (_, _, Normal ()))
      as E3 by (by vm_compute)
  end.
  destruct (Hpair _ _ _ _ _ _ _ E1 E2 eq_refl) as [H1 H2].
  destruct (Hnew _ _ _ _ E3) as [H3 H4]; [by vm_compute|].
  eexists _, _, _, _, _, _.
  split; [exact E1|]. split; [exact E2|]. split; [exact E3|].
  split; [exact H1|]. split; [exact H2|]. split; [exact H3|exact H4].
Defined.

(** ** C8: the base symbol *)

Lemma prefix_app (s1 s2 : string) :
  String.prefix s1 s2 = true → ∃ q, s2 = s1 +:+ q.
Proof.
  revert s2. induction s1 as [|c s1 IH]; intros s2; [by exists s2|].
  destruct s2 as [|d s2]; simpl; [done|].
  destruct (Ascii.ascii_dec c d) as [->|]; [|done].
  intros H. destruct (IH s2 H) as [q ->]. by exists q.
Qed.

Lemma string_length_app (s1 s2 : string) :
  String.length (s1 +:+ s2) = String.length s1 + String.length s2.
Proof. induction s1; simpl; [done|by f_equal]. Qed.

Lemma replace_from_cons (old new : string) (c : ascii) (s : string) :
  replace_from old new 0 (String c s) =
  if String.prefix old (String c s)
  then new +:+ replace_from old new (String.length old - 1) s
  else String c (replace_from old new 0 s).
Proof. reflexivity. Qed.

(** When the quote currency occurs in the symbol only as its suffix,
    [replace('USDT', '')] does strip the suffix. *)
Lemma str_replace_only_suffix (base : string) :
  (∀ p q, base +:+ "USDT" = p +:+ "USDT" +:+ q → q = "") →
  str_replace "USDT" "" (base +:+ "USDT") = base.
Proof.
  unfold str_replace. induction base as [|c base IH]; intros Honly; [done|].
  change (String c base +:+ "USDT") with (String c (base +:+ "USDT")).
  rewrite replace_from_cons.
  destruct (String.prefix "USDT" (String c (base +:+ "USDT"))) eqn:Hpre.
  - apply prefix_app in Hpre as [q Hq].
    assert (q = "") as -> by (apply (Honly "" q); exact Hq).
    apply (f_equal String.length) in Hq. simpl in Hq.
    rewrite string_length_app in Hq. simpl in Hq. lia.
  - f_equal. apply IH. intros p q Hpq. apply (Honly (String c p) q).
    exact (f_equal (String c) Hpq).
Qed.

(** On such a symbol the lookup key is the base asset in upper case, the
    name falls back to that key, and the Symbol column holds the base
    asset. *)
Lemma base_symbol_only_suffix {F : Type} `{FL : !Float64 F}
    (x : Ticker) (names : gmap string string) (base : string) :
  symbol x = base +:+ "USDT" →
  (∀ p q, base +:+ "USDT" = p +:+ "USDT" +:+ q → q = "") →
  pair_sym x = upper base ∧
  name (add_name names x) = default (upper base) (names !! upper base) ∧
  Symbol (final_row (to_frame (add_name names x))) = base.
Proof.
  intros Hsym Honly. unfold add_name, pair_sym. simpl.
  by rewrite Hsym, (str_replace_only_suffix base Honly).
Qed.

(** C8 (what the code does): for the eligible symbol [XUSDTYUSDT], whose
    base asset is [XUSDTY], [replace('USDT', '')] removes both occurrences
    of the quote currency.  The display name is looked up under [XY], so the
    name of another coin is stored although the name map has an entry for
    [XUSDTY], and the Symbol column of the table holds [XY]. *)
Theorem C8_replace_removes_every_occurrence :
  symbol xy = "XUSDTY" +:+ "USDT" ∧
  endswith (symbol xy) "USDT" = true ∧
  pair_sym xy = "XY" ∧
  get_coin_names (Http 200 (Some coins)) !! upper "XUSDTY" = Some "Base asset" ∧
  get_market_data (Http 200 (Some [xy])) (Http 200 (Some coins))
    = Some [ {| pair_ticker := xy; name := "Another asset" |} ] ∧
  process_data (QS := StableQS) [ {| pair_ticker := xy; name := "Another asset" |} ]
    = Ok [ {| Name := "Another asset"; Symbol := "XY";
              Price := Some 2%Z; Market_Cap := Some 10%Z; Volume_24h := Some 5%Z;
              Change_24h := Some 1%Z; Avg_Price := Some 2%Z |} ].
Proof. repeat split; by vm_compute. Qed.

(** * Further properties *)

(** ** The fetcher *)

Lemma endswith_spec (s suffix : string) :
  endswith s suffix = true ↔ ∃ p, s = p +:+ suffix.
Proof.
  induction s as [|c s IH]; cbn [endswith].
  - destruct suffix as [|d suffix]; simpl.
    + split; [by exists ""|done].
    + split; [done|]. intros [p Hp]. destruct p; simpl in Hp; discriminate.
  - destruct (String.eqb_spec (String c s) suffix) as [<-|Hne].
    + split; [by exists ""|done].
    + rewrite IH. split.
      * intros [p ->]. by exists (String c p).
      * intros [p Hp]. destruct p as [|d p]; simpl in Hp; [done|].
        injection Hp as -> ->. by exists p.
Qed.

(** The dict comprehension, with the dict built so far. *)
Lemma coin_dict_foldl (coins : list Coin) (m : gmap string string) (k : string) :
  foldl (λ m c, <[upper (coin_symbol c) := coin_name c]> m) m coins !! k =
  match last (filter (λ c, upper (coin_symbol c) = k) coins) with
  | Some c => Some (coin_name c)
  | None => m !! k
  end.
Proof.
  revert m. induction coins as [|c coins IH]; intros m; [done|].
  simpl. rewrite IH, filter_cons. case_decide as Hk.
  - rewrite last_cons. destruct (last (filter _ coins)); [done|].
    by rewrite <-Hk, lookup_insert_eq.
  - destruct (last (filter _ coins)); [done|]. by rewrite lookup_insert_ne.
Qed.

(** X1: when the coin listing answers 200, the name map gives under a key
    the name of the last listed coin whose upper-cased symbol is that key,
    and nothing when there is no such coin. *)
Theorem X1_name_map_last_coin_wins (coins : list Coin) (k : string) :
  get_coin_names (Http 200 (Some coins)) !! k
  = coin_name <$> last (filter (λ c, upper (coin_symbol c) = k) coins).
Proof.
  simpl. unfold coin_dict. rewrite coin_dict_foldl.
  by destruct (last _).
Qed.

(** When the coin listing fails in any way the name map is empty. *)
Lemma get_coin_names_failed (rn : Response (list Coin)) :
  (∀ coins, rn ≠ Http 200 (Some coins)) → get_coin_names rn = ∅.
Proof.
  intros Hrn. destruct rn as [|status [coins|]]; simpl; [done| |done].
  case_decide as Hs; [|done]. subst. by destruct (Hrn coins).
Qed.

(** X3: a failure of the coin listing (transport error, status other than
    200, body that does not decode) does not fail the fetch: when the ticker
    endpoint answers 200, [get_market_data] still returns the eligible rows,
    each named by its lookup key. *)
Theorem X3_names_fall_back_when_listing_fails
    (rn : Response (list Coin)) (data : list Ticker) :
  (∀ coins, rn ≠ Http 200 (Some coins)) →
  get_market_data (Http 200 (Some data)) rn
  = Some ((λ x, {| pair_ticker := x; name := pair_sym x |})
            <$> filter (λ x, endswith (symbol x) "USDT" = true) data).
Proof.
  intros Hrn. simpl. rewrite (get_coin_names_failed rn Hrn). reflexivity.
Qed.

Lemma X3_names_fall_back_when_listing_fails_witness :
  (∀ coins : list Coin, Http 429 None ≠ Http 200 (Some coins)) ∧
  get_market_data (Http 200 (Some [pair_ticker eth; ticker "ETHBTC" "1" "1" "1" "1" "1"]))
                  (Http 429 None)
  = Some [ {| pair_ticker := pair_ticker eth; name := "ETH" |} ].
Proof.
  split; [done|].
  rewrite (X3_names_fall_back_when_listing_fails (Http 429 None)); [by vm_compute|done].
Defined.

(** X4: [get_market_data] returns rows only when the ticker endpoint
    answers 200 with a body that decodes.  The rows are then the received
    tickers whose symbol has the form [base + 'USDT'], all of them and in
    the order received, and each carries as name the entry of the name map
    under its lookup key, or that key when there is none. *)
Theorem X4_fetch_returns_the_usdt_pairs
    (r : Response (list Ticker)) (rn : Response (list Coin)) (rows : list Pair) :
  get_market_data r rn = Some rows →
  ∃ data,
    r = Http 200 (Some data) ∧
    pair_ticker <$> rows `sublist_of` data ∧
    (∀ x, x ∈ pair_ticker <$> rows ↔ x ∈ data ∧ ∃ base, symbol x = base +:+ "USDT") ∧
    (∀ p, p ∈ rows →
       name p = default (pair_sym (pair_ticker p))
                        (get_coin_names rn !! pair_sym (pair_ticker p))).
Proof.
  destruct r as [|status [data|]]; simpl; [done| |by case_decide].
  case_decide as Hs; [done|]. intros [= <-].
  assert (status = 200) as -> by (destruct (decide (status = 200)); [done|by destruct Hs]).
  exists data. split; [done|].
  assert (pair_ticker <$> (add_name (get_coin_names rn) <$>
            filter (λ x, endswith (symbol x) "USDT" = true) data)
          = filter (λ x, endswith (symbol x) "USDT" = true) data) as Htick.
  { rewrite <-list_fmap_compose. rewrite <-(list_fmap_id (filter _ data)) at 2.
    by apply list_fmap_ext. }
  rewrite Htick. split; [apply sublist_filter|]. split.
  - intros x. rewrite list_elem_of_filter, endswith_spec. tauto.
  - intros p (x & -> & _)%list_elem_of_fmap. done.
Qed.

Lemma X4_fetch_returns_the_usdt_pairs_witness :
  get_market_data (w_ticker (fine 10)) (w_coins (fine 10)) = Some [eth; btc] ∧
  pair_ticker <$> [eth; btc] `sublist_of` [pair_ticker eth; pair_ticker btc].
Proof.
  assert (get_market_data (w_ticker (fine 10)) (w_coins (fine 10)) = Some [eth; btc]) as H
    by (by vm_compute).
  split; [exact H|].
  destruct (X4_fetch_returns_the_usdt_pairs _ _ _ H) as (data & Hr & Hsub & _).
  injection Hr as <-. exact Hsub.
Defined.

(** ** The aggregator *)
Section aggregator_facts.
Context {F : Type} `{FL : !Float64 F} `{QS : !Quicksort F}.
Abbreviation num := (num F).
Abbreviation FrameRow := (FrameRow F).
Abbreviation MarketRow := (MarketRow F).
Abbreviation Stats := (Stats F).

(** The frames [nlargest] and [nsmallest] take their first rows from. *)
Lemma selection_perm {A} (le : F * A → F * A → bool) (key : A → num) df :
  (snd <$> isort_by le (dropna key df)) ++ isna key df ≡ₚ df.
Proof. by rewrite isort_by_perm, dropna_isna_perm. Qed.

Lemma keyed_sorted {A} (key : A → num) (R : relation (F * A)) (ord : relation A)
    (q : list (F * A)) :
  Transitive R →
  (∀ p p', R p p' → key (snd p) = Some (fst p) → key (snd p') = Some (fst p') →
           ord (snd p) (snd p')) →
  Sorted R q → Forall (λ p, key (snd p) = Some (fst p)) q →
  StronglySorted ord (snd <$> q).
Proof.
  intros Htr Hord Hs Hk.
  eapply StronglySorted_fmap;
    [|apply StronglySorted_restrict; [by apply Sorted_StronglySorted|exact Hk]].
  intros p p' (HR & Hp & Hp'). by apply Hord.
Qed.

Lemma dropna_keys {A} (key : A → num) (q : list (F * A)) df :
  q ≡ₚ dropna key df → Forall (λ p, key (snd p) = Some (fst p)) q.
Proof.
  intros Hq. apply Forall_forall. intros [v r] Hin. rewrite Hq in Hin.
  by apply dropna_elem in Hin as [_ ?].
Qed.

Lemma nlargest_frame_sorted {A} (key : A → num) df :
  StronglySorted (desc_order key)
    ((snd <$> isort_by (λ a b, fleb (fst b) (fst a)) (dropna key df)) ++ isna key df).
Proof.
  apply StronglySorted_app_2.
  - intros a b Ha Hb.
    apply list_elem_of_fmap in Ha as ([v a'] & -> & Ha). rewrite isort_by_perm in Ha.
    apply dropna_elem in Ha as [_ Ha]. apply isna_elem in Hb as [_ Hb].
    unfold desc_order. simpl. by rewrite Ha, Hb.
  - apply (keyed_sorted key (λ p p', fleb (fst p') (fst p) = true)).
    + intros a b c Hab Hbc. by eapply fleb_trans.
    + intros p p' HR Hp Hp'. unfold desc_order. by rewrite Hp, Hp'.
    + apply isort_by_sorted; [done|].
      intros a b Hf. destruct (fleb_total (fst a) (fst b)); [done|congruence].
    + apply (dropna_keys key _ df), isort_by_perm.
  - apply StronglySorted_trivial. intros a b _ Hb.
    apply isna_elem in Hb as [_ Hb]. unfold desc_order. rewrite Hb. by destruct (key a).
Qed.

Lemma nsmallest_frame_sorted {A} (key : A → num) df :
  StronglySorted (asc_order key)
    ((snd <$> isort_by (λ a b, fleb (fst a) (fst b)) (dropna key df)) ++ isna key df).
Proof.
  apply StronglySorted_app_2.
  - intros a b Ha Hb.
    apply list_elem_of_fmap in Ha as ([v a'] & -> & Ha). rewrite isort_by_perm in Ha.
    apply dropna_elem in Ha as [_ Ha]. apply isna_elem in Hb as [_ Hb].
    unfold asc_order. simpl. by rewrite Ha, Hb.
  - apply (keyed_sorted key (λ p p', fleb (fst p) (fst p') = true)).
    + intros a b c Hab Hbc. by eapply fleb_trans.
    + intros p p' HR Hp Hp'. unfold asc_order. by rewrite Hp, Hp'.
    + apply isort_by_sorted; [done|].
      intros a b Hf. destruct (fleb_total (fst a) (fst b)); [congruence|done].
    + apply (dropna_keys key _ df), isort_by_perm.
  - apply StronglySorted_trivial. intros a b _ Hb.
    apply isna_elem in Hb as [_ Hb]. unfold asc_order. rewrite Hb. by destruct (key a).
Qed.

(** The first [n] rows of a sorted frame and the rows after them. *)
Lemma take_drop_sorted {A} (ord : relation A) (n : nat) (l df : list A) :
  StronglySorted ord l → l ≡ₚ df →
  StronglySorted ord (take n l) ∧
  take n l ++ drop n l ≡ₚ df ∧
  (∀ a b, a ∈ take n l → b ∈ drop n l → ord a b).
Proof.
  intros Hs Hp. split; [by apply StronglySorted_take|].
  split; [by rewrite take_drop|].
  rewrite <-(take_drop n l) in Hs. intros a b.
  by apply StronglySorted_app_1_elem_of.
Qed.

(** The first row of a sorted frame stands before every other row. *)
Lemma first_record_least {A B} (ord : relation A) (f : A → B) (l df : list A) (c : B) :
  StronglySorted ord l → l ≡ₚ df →
  first_record (f <$> take 1 l) = Ok c →
  ∃ h, c = f h ∧ h ∈ df ∧ ∀ r, r ∈ df → r = h ∨ ord h r.
Proof.
  intros Hs Hp Hc. destruct l as [|h l]; [done|]. simpl in Hc. injection Hc as <-.
  exists h. split; [done|]. split; [rewrite <-Hp; by left|].
  intros r Hr. rewrite <-Hp in Hr. apply elem_of_cons in Hr as [->|Hr]; [by left|].
  right. apply StronglySorted_cons in Hs as [Hh _].
  rewrite Forall_forall in Hh. by apply Hh.
Qed.

(** The fields of a returned [stats] that are selections of rows. *)
Lemma analyze_market_selections now (df : list MarketRow) st :
  analyze_market now df = Ok st →
  top_5_by_market_cap (detailed_analysis st) = top_coin <$> nlargest 5 Market_Cap df ∧
  first_record (change_record <$> nlargest 1 Change_24h df)
    = Ok (highest_24h_change (price_changes (detailed_analysis st))) ∧
  first_record (change_record <$> nsmallest 1 Change_24h df)
    = Ok (lowest_24h_change (price_changes (detailed_analysis st))).
Proof.
  unfold analyze_market.
  destruct (first_record _) as [h|]; [|done].
  destruct (first_record _) as [l|]; [|done].
  by intros [= <-].
Qed.

(** A change cannot be both above and below zero. *)
Lemma gt0_lt0 (a : num) : gt0 a = true → lt0 a = true → False.
Proof.
  destruct a as [x|]; simpl; [|done].
  destruct (fleb_total x fzero) as [->| ->]; simpl; done.
Qed.

Lemma performers_partition (df : list MarketRow) :
  length (filter (λ r, gt0 (Change_24h r) = true) df)
  + length (filter (λ r, lt0 (Change_24h r) = true) df)
  + length (filter unchanged df) = length df.
Proof.
  induction df as [|r df IH]; [done|].
  rewrite !filter_cons.
  pose proof (gt0_lt0 (Change_24h r)) as Hex.
  assert (unchanged r ↔ gt0 (Change_24h r) ≠ true ∧ lt0 (Change_24h r) ≠ true) as Hun.
  { unfold unchanged. destruct (gt0 (Change_24h r)), (lt0 (Change_24h r)); intuition. }
  repeat case_decide; simpl; try lia; tauto.
Qed.

(** X5: the 50 rows [process_data] keeps and the rows it leaves out are
    together the input rows, and no row left out has a larger quoteVolume
    than a row kept (a row without quoteVolume is kept only if no row with
    one is left out).  With at most 50 input rows nothing is left out. *)
Theorem X5_top50_keeps_the_largest (raw_data : list Pair) :
  top50 raw_data ++ left_out raw_data ≡ₚ to_frame <$> raw_data ∧
  (∀ a b, a ∈ top50 raw_data → b ∈ left_out raw_data → desc_order f_quoteVolume a b) ∧
  ((length raw_data ≤ 50)%nat →
   left_out raw_data = [] ∧ top50 raw_data ≡ₚ to_frame <$> raw_data).
Proof.
  unfold top50, left_out.
  destruct (take_drop_sorted (desc_order f_quoteVolume) 50
              (sort_values_desc f_quoteVolume (to_frame <$> raw_data))
              (to_frame <$> raw_data)) as (_ & Hperm & Hord);
    [apply sort_values_desc_sorted|apply sort_values_desc_perm|].
  split; [done|]. split; [done|].
  intros Hlen.
  assert (length (sort_values_desc f_quoteVolume (to_frame <$> raw_data)) ≤ 50)%nat as Hl
    by (by rewrite sort_values_desc_perm, length_fmap).
  rewrite drop_ge, take_ge by done. split; [done|apply sort_values_desc_perm].
Qed.

(** X6: the rows of the table are split three ways by their 24h change:
    those counted in [positive_performers], those counted in
    [negative_performers], and those whose change is zero or missing, which
    are counted in neither; so the two counts never add up to more than the
    number of rows. *)
Theorem X6_performers_partition (now : string) (df : list MarketRow) (st : Stats) :
  analyze_market now df = Ok st →
  positive_performers (market_health st) + negative_performers (market_health st)
  + length (filter unchanged df) = length df ∧
  (positive_performers (market_health st) + negative_performers (market_health st)
   ≤ length df)%nat.
Proof.
  intros (_ & _ & Hh & _)%analyze_market_inv. rewrite Hh. simpl.
  pose proof (performers_partition df). lia.
Qed.

(** X7: [analyze_market] raises exactly on the empty table, and then it is
    the [IndexError] of [records[0]]. *)
Theorem X7_analyze_market_raises_on_empty (now : string) (df : list MarketRow) (e : Exn) :
  analyze_market now df = Raise e ↔ df = [] ∧ e = IndexError.
Proof.
  split.
  - intros Hr. destruct df as [|r df].
    + by injection Hr as <-.
    + destruct (analyze_market_Ok now (r :: df)) as [st Hst]; [done|congruence].
  - by intros [-> ->].
Qed.

(** X8: [top_5_by_market_cap] lists [min 5 n] rows of the [n]-row table, in
    descending order of Market Cap with missing values last, and no row
    that is not listed has a larger Market Cap than a listed one; with
    fewer than five rows all of them are listed. *)
Theorem X8_top_5_are_the_largest (now : string) (df : list MarketRow) (st : Stats) :
  analyze_market now df = Ok st →
  ∃ listed rest,
    top_5_by_market_cap (detailed_analysis st) = top_coin <$> listed ∧
    length listed = min 5 (length df) ∧
    listed ++ rest ≡ₚ df ∧
    StronglySorted (desc_order Market_Cap) listed ∧
    (∀ a b, a ∈ listed → b ∈ rest → desc_order Market_Cap a b).
Proof.
  intros (Htop & _)%analyze_market_selections.
  set (frame := (snd <$> isort_by (λ a b, fleb (fst b) (fst a)) (dropna Market_Cap df))
                ++ isna Market_Cap df).
  destruct (take_drop_sorted (desc_order Market_Cap) 5 frame df)
    as (Hs & Hperm & Hord); [apply nlargest_frame_sorted|apply selection_perm|].
  exists (take 5 frame), (drop 5 frame).
  split; [done|]. split; [|done].
  rewrite length_take. unfold frame. by rewrite selection_perm.
Qed.

(** X9: [highest_24h_change] and [lowest_24h_change] are taken from rows of
    the table, and whenever some row has a change that is not missing, the
    first has a change at least as large and the second a change at most as
    large as that row's. *)
Theorem X9_highest_and_lowest_change (now : string) (df : list MarketRow) (st : Stats) :
  analyze_market now df = Ok st →
  ∃ hi lo,
    hi ∈ df ∧ lo ∈ df ∧
    highest_24h_change (price_changes (detailed_analysis st)) = change_record hi ∧
    lowest_24h_change (price_changes (detailed_analysis st)) = change_record lo ∧
    ∀ r y, r ∈ df → Change_24h r = Some y →
      (∃ x, Change_24h hi = Some x ∧ fleb y x = true) ∧
      (∃ x, Change_24h lo = Some x ∧ fleb x y = true).
Proof.
  intros (_ & Hhi & Hlo)%analyze_market_selections.
  apply (first_record_least (desc_order Change_24h) _ _ df) in Hhi
    as (hi & Hhi & Hin & Hmax); [|apply nlargest_frame_sorted|apply selection_perm].
  apply (first_record_least (asc_order Change_24h) _ _ df) in Hlo
    as (lo & Hlo & Hin' & Hmin); [|apply nsmallest_frame_sorted|apply selection_perm].
  exists hi, lo. do 4 (split; [done|]).
  intros r y Hr Hy. split.
  - destruct (Hmax r Hr) as [->|Hord].
    + exists y. split; [done|]. by destruct (fleb_total y y).
    + unfold desc_order in Hord. rewrite Hy in Hord.
      destruct (Change_24h hi) as [x|]; [eauto|done].
  - destruct (Hmin r Hr) as [->|Hord].
    + exists y. split; [done|]. by destruct (fleb_total y y).
    + unfold asc_order in Hord. rewrite Hy in Hord.
      destruct (Change_24h lo) as [x|]; [eauto|done].
Qed.
End aggregator_facts.

(** ** Whole runs of the loops *)
Section run_facts.
Context {F : Type} `{FL : !Float64 F} `{QS : !Quicksort F}.
Abbreviation num := (num F).
Abbreviation MarketRow := (MarketRow F).
Abbreviation Stats := (Stats F).
Abbreviation Event := (Event F).

Lemma fetched_aggregates (w : World) :
  fetches_rows w → ∃ p raw df st,
    get_market_data (w_ticker w) (w_coins w) = Some (p :: raw) ∧
    process_data (p :: raw) = Ok df ∧ analyze_market (w_now w) df = Ok st.
Proof.
  unfold fetches_rows. intros Hf.
  destruct (get_market_data _ _) as [[|p raw]|] eqn:Hget; [done| |done].
  destruct (aggregate_Ok (p :: raw) (w_now w)) as (df & st & Hdf & Hst & _); [done|].
  eauto 8.
Qed.

(** The passes of the loop of main.py. *)
Lemma Main_iteration_cases (w : World) (t : Main.Tracker) :
  (¬ fetches_rows w ∧ Main.iteration (F := F) w t = (t, [EvFetch], Continue)) ∨
  (fetches_rows w ∧ ∃ df st t' mid,
     aggregated w df st ∧ after_excel df st mid ∧
     Main.iteration w t
       = (t', EvFetch :: EvExcel df st :: mid ++ [EvSleep (Main.update_interval t)],
          Normal ()) ∧
     Main.update_interval t' = Main.update_interval t ∧
     (Main.last_report_hour t' = Main.last_report_hour t ∨
      Main.last_report_hour t' = Some (w_hour w) ∧ mid = [EvReport df st])).
Proof.
  destruct (decide (fetches_rows w)) as [Hf|Hf].
  - right. split; [done|].
    destruct (fetched_aggregates w Hf) as (p & raw & df & st & Hget & Hdf & Hst).
    exists df, st. rewrite Main_iteration_unfold, Main_cycle_unfold, Hget, Hdf, Hst.
    assert (aggregated w df st) by (unfold aggregated; eauto).
    unfold after_excel.
    destruct (w_excel w) as [e|]; [eauto 12|]. case_decide; [eauto 12|].
    destruct (w_report w) as [e|]; simpl; eauto 12.
  - left. split; [done|]. apply Main_cycle_falsy.
    unfold fetches_rows in Hf. by destruct (falsy _).
Qed.

(** The passes of the loop of app.py. *)
Lemma App_iteration_cases (w : World) (t : App.Tracker F) :
  (¬ fetches_rows w ∧ App.iteration w t = (t, [EvFetch], Continue)) ∨
  (fetches_rows w ∧ ∃ df st t' mid,
     aggregated w df st ∧ after_excel df st mid ∧
     App.iteration w t
       = (t', EvFetch :: EvExcel df st :: mid ++ [EvSleep (App.update_interval t)],
          Normal ()) ∧
     App.update_interval t' = App.update_interval t ∧
     (App.last_report_hour t' = App.last_report_hour t ∨
      App.last_report_hour t' = Some (w_hour w) ∧ mid = [EvReport df st]) ∧
     (App.latest_data t' = App.latest_data t ∨
      App.latest_data t' = App.snapshot df st)).
Proof.
  destruct (decide (fetches_rows w)) as [Hf|Hf].
  - right. split; [done|].
    destruct (fetched_aggregates w Hf) as (p & raw & df & st & Hget & Hdf & Hst).
    exists df, st. rewrite App_iteration_unfold, App_cycle_unfold, Hget, Hdf, Hst.
    assert (aggregated w df st) by (unfold aggregated; eauto).
    unfold after_excel.
    destruct (w_excel w) as [e|]; [eauto 14|]. simpl. case_decide; [eauto 14|].
    destruct (w_report w) as [e|]; simpl; eauto 14.
  - left. split; [done|]. apply App_cycle_falsy.
    unfold fetches_rows in Hf. by destruct (falsy _).
Qed.

Lemma iterations_agree (w : World) (tA : App.Tracker F) (tM : Main.Tracker) :
  same_loop_state tA tM →
  ∃ tA' tM' tr sg,
    App.iteration w tA = (tA', tr, sg) ∧ Main.iteration w tM = (tM', tr, sg) ∧
    same_loop_state tA' tM'.
Proof.
  intros [Hi Hh].
  assert (∀ (tA' : App.Tracker F) (tM' : Main.Tracker) (tr tr' : list Event)
            (sg : Signal unit),
            tr = tr' → same_loop_state tA' tM' →
            ∃ tA'' tM'' tr'' sg',
              (tA', tr, sg) = (tA'', tr'', sg') ∧ (tM', tr', sg) = (tM'', tr'', sg') ∧
              same_loop_state tA'' tM'') as Hagree.
  { intros tA' tM' tr ? sg <- Hs. by exists tA', tM', tr, sg. }
  rewrite App_iteration_unfold, Main_iteration_unfold, App_cycle_unfold, Main_cycle_unfold.
  destruct (get_market_data _ _) as [[|p raw]|]; [by apply Hagree| |by apply Hagree].
  destruct (process_data _) as [df|e]; [|apply Hagree; [by rewrite Hi|done]].
  destruct (analyze_market _ _) as [st|e]; [|apply Hagree; [by rewrite Hi|done]].
  destruct (w_excel w) as [e|]; [apply Hagree; [by rewrite Hi|done]|]. simpl.
  rewrite Hh. case_decide; [apply Hagree; [simpl; by rewrite Hi|by split]|].
  destruct (w_report w) as [e|]; (apply Hagree; [simpl; by rewrite Hi|by split]).
Qed.

Lemma runs_agree (ws : list World) (tA : App.Tracker F) (tM : Main.Tracker) :
  same_loop_state tA tM →
  (App.run ws tA).2 = (Main.run ws tM).2 ∧
  same_loop_state (App.run ws tA).1 (Main.run ws tM).1.
Proof.
  revert tA tM. induction ws as [|w ws IH]; intros tA tM Hs; [done|].
  unfold App.run, Main.run in *. simpl. destruct (w_running w); [|done].
  destruct (iterations_agree w tA tM Hs) as (tA' & tM' & tr & sg & -> & -> & Hs').
  destruct sg as [[]|e|]; [|done|].
  - destruct (IH tA' tM' Hs') as [Htr Hst].
    destruct (while_running App.iteration ws tA'), (while_running Main.iteration ws tM').
    simpl in *. by rewrite Htr.
  - destruct (IH tA' tM' Hs') as [Htr Hst].
    destruct (while_running App.iteration ws tA'), (while_running Main.iteration ws tM').
    simpl in *. by rewrite Htr.
Qed.

(** One step of [run], for a pass that is entered. *)
Lemma Main_run_cons (w : World) (ws : list World) (t t' : Main.Tracker)
    (tr : list Event) (sg : Signal unit) :
  Main.iteration (F := F) w t = (t', tr, sg) →
  w_running w = true → (∀ e, sg ≠ Raised e) →
  Main.run (w :: ws) t = ((Main.run ws t').1, tr ++ (Main.run ws t').2).
Proof.
  intros Hit Hrun Hsg. unfold Main.run. simpl. rewrite Hrun, Hit.
  destruct sg as [[]|e|]; [|by destruct (Hsg e)|];
    by destruct (while_running Main.iteration ws t').
Qed.

Lemma App_run_step (w : World) (ws : list World) (t t' : App.Tracker F)
    (tr : list Event) (sg : Signal unit) :
  App.iteration w t = (t', tr, sg) →
  w_running w = true → (∀ e, sg ≠ Raised e) →
  App.run (w :: ws) t = ((App.run ws t').1, tr ++ (App.run ws t').2).
Proof.
  intros Hit Hrun Hsg. unfold App.run. simpl. rewrite Hrun, Hit.
  destruct sg as [[]|e|]; [|by destruct (Hsg e)|];
    by destruct (while_running App.iteration ws t').
Qed.

Lemma run_stopped_Main (w : World) (ws : list World) (t : Main.Tracker) :
  w_running w = false → Main.run (F := F) (w :: ws) t = (t, []).
Proof. intros Hrun. unfold Main.run. simpl. by rewrite Hrun. Qed.

Lemma run_stopped_App (w : World) (ws : list World) (t : App.Tracker F) :
  w_running w = false → App.run (w :: ws) t = (t, []).
Proof. intros Hrun. unfold App.run. simpl. by rewrite Hrun. Qed.
End run_facts.

Section run_claims.
Context {F : Type} `{FL : !Float64 F} `{QS : !Quicksort F}.
Abbreviation num := (num F).
Abbreviation MarketRow := (MarketRow F).
Abbreviation Stats := (Stats F).
Abbreviation Event := (Event F).

Lemma same_loop_state_Main_of (tA : App.Tracker F) : same_loop_state tA (Main_of tA).
Proof. by split. Qed.

Lemma aggregated_length (w : World) (df : list MarketRow) (st : Stats) :
  aggregated w df st → (1 ≤ length df ≤ 50)%nat ∧ timestamp st = w_now w.
Proof.
  intros (raw & _ & Hdf & Hst). apply process_data_Ok in Hdf as [Hne ->].
  apply analyze_market_inv in Hst as [-> _].
  rewrite length_fmap, length_top50. split; [|done].
  destruct raw; [done|]. rewrite length_cons. lia.
Qed.

Lemma count_fetches_app (tr1 tr2 : list Event) :
  count_fetches (tr1 ++ tr2) = count_fetches tr1 + count_fetches tr2.
Proof. unfold count_fetches. by rewrite List.filter_app, length_app. Qed.

Lemma count_sleeps_app (tr1 tr2 : list Event) :
  count_sleeps (tr1 ++ tr2) = count_sleeps tr1 + count_sleeps tr2.
Proof. unfold count_sleeps. by rewrite List.filter_app, length_app. Qed.

Lemma after_excel_counts (df : list MarketRow) (st : Stats) (mid : list Event) :
  after_excel df st mid →
  count_fetches mid = 0 ∧ count_sleeps mid = 0 ∧
  ∀ ev, ev ∈ mid → ev = EvReport df st ∨ ∃ e, ev = EvCaught e.
Proof.
  intros [->|[->|[e [->| ->]]]]; (split; [done|]; split; [done|]);
    intros ev Hev; repeat (apply elem_of_cons in Hev as [->|Hev]); eauto;
    by apply elem_of_nil in Hev.
Qed.

(** [latest_data] after a run of app.py. *)
Lemma run_latest_data (ws : list World) (t0 : App.Tracker F) :
  App.latest_data (App.run ws t0).1 = App.latest_data t0 ∨
  ∃ w df st,
    w ∈ ws ∧ aggregated w df st ∧
    App.latest_data (App.run ws t0).1 = App.snapshot df st.
Proof.
  revert t0. induction ws as [|w ws IH]; intros t0; [by left|].
  destruct (w_running w) eqn:Hrun; [|left; by rewrite run_stopped_App].
  destruct (App_iteration_cases w t0)
    as [[_ Hit]|(_ & df & st & t' & mid & Hagg & _ & Hit & _ & _ & Hsnap)];
    rewrite (App_run_step w ws _ _ _ _ Hit Hrun) by done; cbn [fst snd].
  - destruct (IH t0) as [?|(w' & df & st & Hw' & ?)]; [by left|right].
    exists w', df, st. split; [by right|done].
  - destruct (IH t') as [->|(w' & df' & st' & Hw' & ?)].
    + destruct Hsnap as [?|Hsnap]; [by left|right].
      exists w, df, st. split; [by left|done].
    + right. exists w', df', st'. split; [by right|done].
Qed.

(** X10: whatever the passes of a run of app.py did, [latest_data] is
    afterwards either what it was before the run or the table of one of the
    passes together with the stats computed from that very table, stamped
    with the time of that pass; the table has between 1 and 50 rows. *)
Theorem X10_snapshot_is_consistent (ws : list World) (t0 : App.Tracker F) :
  App.latest_data (App.run ws t0).1 = App.latest_data t0 ∨
  ∃ w df st,
    w ∈ ws ∧ aggregated w df st ∧
    App.latest_data (App.run ws t0).1
      = {| App.data := Some df; App.stats := Some st;
           App.last_updated := Some (w_now w) |} ∧
    (1 ≤ length df ≤ 50)%nat.
Proof.
  destruct (run_latest_data ws t0) as [?|(w & df & st & Hw & Hagg & Hsnap)]; [by left|].
  right. exists w, df, st. split; [done|]. split; [done|].
  destruct (aggregated_length w df st Hagg) as [Hlen Hts].
  split; [|done]. rewrite Hsnap. unfold App.snapshot. by rewrite Hts.
Qed.

(** A run of main.py: what is published, how often the loop fetches and
    sleeps. *)
Lemma Main_run_trace (ws : list World) (t : Main.Tracker) :
  (∀ ev, ev ∈ (Main.run (F := F) ws t).2 →
     match ev with
     | EvExcel df st => ∃ w, w ∈ ws ∧ aggregated w df st
     | EvReport df st =>
         (∃ w, w ∈ ws ∧ aggregated w df st) ∧ EvExcel df st ∈ (Main.run ws t).2
     | EvSleep n => n = Main.update_interval t
     | _ => True
     end) ∧
  Main.update_interval (Main.run (F := F) ws t).1 = Main.update_interval t ∧
  (Forall (λ w, w_running w = true) ws →
   count_fetches (Main.run (F := F) ws t).2 = length ws ∧
   count_sleeps (Main.run (F := F) ws t).2 = length (filter fetches_rows ws)).
Proof.
  revert t. induction ws as [|w ws IH]; intros t.
  { split; [by intros ev Hev%elem_of_nil|done]. }
  destruct (w_running w) eqn:Hrun.
  2:{ rewrite run_stopped_Main by done. simpl.
      split; [by intros ev Hev%elem_of_nil|]. split; [done|].
      intros Hall. apply Forall_cons in Hall as [? _]. congruence. }
  destruct (Main_iteration_cases w t)
    as [[Hnf Hit]|(Hf & df & st & t' & mid & Hagg & Hmid & Hit & Hint & _)];
    rewrite (Main_run_cons w ws _ _ _ _ Hit Hrun) by done; cbn [fst snd].
  - destruct (IH t) as (Hev & Hi & Hcount). split; [|split; [done|]].
    + intros ev [Hin|Hin]%elem_of_app.
      { apply elem_of_cons in Hin as [->|Hin]; [done|by apply elem_of_nil in Hin]. }
      specialize (Hev ev Hin). destruct ev; try done.
      * destruct Hev as (w' & ? & ?). exists w'. split; [by right|done].
      * destruct Hev as [(w' & ? & ?) ?]. split; [|apply elem_of_app; by right].
        exists w'. split; [by right|done].
    + intros Hall. apply Forall_cons in Hall as [_ Hall].
      destruct (Hcount Hall) as [Hcf Hcs].
      rewrite filter_cons, decide_False by done.
      rewrite count_fetches_app, count_sleeps_app, Hcf, Hcs. done.
  - destruct (IH t') as (Hev & Hi & Hcount).
    destruct (after_excel_counts df st mid Hmid) as (Hmf & Hms & Hmev).
    split; [|split; [congruence|]].
    + intros ev [Hin|Hin]%elem_of_app.
      * apply elem_of_cons in Hin as [->|Hin]; [done|].
        apply elem_of_cons in Hin as [->|Hin]; [exists w; split; [by left|done]|].
        apply elem_of_app in Hin as [Hin|Hin].
        -- destruct (Hmev ev Hin) as [->|[e ->]]; [|done].
           split; [exists w; split; [by left|done]|].
           apply elem_of_app. left. right. by left.
        -- apply elem_of_cons in Hin as [->|Hin]; [done|by apply elem_of_nil in Hin].
      * specialize (Hev ev Hin). destruct ev; try done.
        -- destruct Hev as (w' & ? & ?). exists w'. split; [by right|done].
        -- destruct Hev as [(w' & ? & ?) ?]. split; [|apply elem_of_app; by right].
           exists w'. split; [by right|done].
        -- congruence.
    + intros Hall. apply Forall_cons in Hall as [_ Hall].
      destruct (Hcount Hall) as [Hcf Hcs]. rewrite filter_cons, decide_True by done.
      change (EvFetch :: EvExcel df st :: mid ++ [EvSleep (Main.update_interval t)])
        with ([EvFetch; EvExcel df st] ++ mid ++ [EvSleep (Main.update_interval t)]).
      rewrite !count_fetches_app, !count_sleeps_app, Hmf, Hms, Hcf, Hcs.
      split; reflexivity.
Qed.

(** X11: in a run of either loop every spreadsheet and every document is
    written from the table of one of the passes and the stats computed from
    that very table, and a document is written only from a table and stats
    that a spreadsheet was written from. *)
Theorem X11_published_in_sync (ws : list World) :
  (∀ (t : Main.Tracker) df st,
     (EvExcel df st ∈ (Main.run (F := F) ws t).2 → ∃ w, w ∈ ws ∧ aggregated w df st) ∧
     (EvReport df st ∈ (Main.run (F := F) ws t).2 →
      (∃ w, w ∈ ws ∧ aggregated w df st) ∧ EvExcel df st ∈ (Main.run (F := F) ws t).2)) ∧
  (∀ (t : App.Tracker F) df st,
     (EvExcel df st ∈ (App.run ws t).2 → ∃ w, w ∈ ws ∧ aggregated w df st) ∧
     (EvReport df st ∈ (App.run ws t).2 →
      (∃ w, w ∈ ws ∧ aggregated w df st) ∧ EvExcel df st ∈ (App.run ws t).2)).
Proof.
  assert (∀ (t : Main.Tracker) df st,
     (EvExcel df st ∈ (Main.run (F := F) ws t).2 → ∃ w, w ∈ ws ∧ aggregated w df st) ∧
     (EvReport df st ∈ (Main.run (F := F) ws t).2 →
      (∃ w, w ∈ ws ∧ aggregated w df st) ∧ EvExcel df st ∈ (Main.run (F := F) ws t).2))
    as HMain.
  { intros t df st. destruct (Main_run_trace ws t) as [Hev _].
    split; intros Hin; exact (Hev _ Hin). }
  split; [done|]. intros t df st.
  destruct (runs_agree ws t (Main_of t) (same_loop_state_Main_of t)) as [-> _].
  apply HMain.
Qed.

(** X12: started with the same interval and the same hour of the last
    report, the loop of app.py and the loop of main.py make the same calls
    in the same order on the same passes, and end with the same interval
    and the same hour of the last report. *)
Theorem X12_app_loop_is_main_loop
    (ws : list World) (tA : App.Tracker F) (tM : Main.Tracker) :
  App.update_interval tA = Main.update_interval tM →
  App.last_report_hour tA = Main.last_report_hour tM →
  (App.run ws tA).2 = (Main.run ws tM).2 ∧
  App.update_interval (App.run ws tA).1 = Main.update_interval (Main.run ws tM).1 ∧
  App.last_report_hour (App.run ws tA).1 = Main.last_report_hour (Main.run ws tM).1.
Proof.
  intros Hi Hh. destruct (runs_agree ws tA tM) as [Htr [? ?]]; [by split|done].
Qed.

(** X13: in a run in which [self.running] is read as true at every loop
    test, each pass fetches once, the loop sleeps once for every pass that
    got rows and not at all for the others, and every sleep lasts the
    interval the tracker was created with. *)
Theorem X13_fetches_and_sleeps (ws : list World) :
  Forall (λ w, w_running w = true) ws →
  (∀ t : Main.Tracker,
     count_fetches (Main.run (F := F) ws t).2 = length ws ∧
     count_sleeps (Main.run (F := F) ws t).2 = length (filter fetches_rows ws) ∧
     ∀ n, EvSleep n ∈ (Main.run (F := F) ws t).2 → n = Main.update_interval t) ∧
  (∀ t : App.Tracker F,
     count_fetches (App.run ws t).2 = length ws ∧
     count_sleeps (App.run ws t).2 = length (filter fetches_rows ws) ∧
     ∀ n, EvSleep n ∈ (App.run ws t).2 → n = App.update_interval t).
Proof.
  intros Hall.
  assert (∀ t : Main.Tracker,
     count_fetches (Main.run (F := F) ws t).2 = length ws ∧
     count_sleeps (Main.run (F := F) ws t).2 = length (filter fetches_rows ws) ∧
     ∀ n, EvSleep n ∈ (Main.run (F := F) ws t).2 → n = Main.update_interval t) as HMain.
  { intros t. destruct (Main_run_trace ws t) as (Hev & _ & Hcount).
    destruct (Hcount Hall) as [? ?]. split; [done|]. split; [done|].
    intros n Hin. exact (Hev _ Hin). }
  split; [done|]. intros t.
  destruct (runs_agree ws t (Main_of t) (same_loop_state_Main_of t)) as [-> _].
  apply (HMain (Main_of t)).
Qed.

(** X15: a pass changes [last_report_hour] only by writing the document
    without an exception; a pass in which anything raises leaves it as it
    was, so that after a failed document write the next pass that ends
    normally in a different hour than [last_report_hour] writes the
    document. *)
Theorem X15_failed_report_is_retried
    (w1 w2 : World) (t t1 t2 : App.Tracker F) (tr1 tr2 : list Event) (e : Exn) :
  App.cycle w1 t = (t1, tr1, Raised e) →
  App.last_report_hour t1 = App.last_report_hour t ∧
  (App.cycle w2 t1 = (t2, tr2, Normal ()) →
   App.last_report_hour t ≠ Some (w_hour w2) →
   count_reports tr2 = 1 ∧ App.last_report_hour t2 = Some (w_hour w2)).
Proof.
  intros Hc.
  assert (App.last_report_hour t1 = App.last_report_hour t) as Hm.
  { rewrite App_cycle_unfold in Hc.
    destruct (get_market_data _ _) as [[|p raw]|]; [done| |done].
    destruct (process_data _); [|by simplify_eq].
    destruct (analyze_market _ _); [|by simplify_eq].
    destruct (w_excel w1); [by simplify_eq|]. simpl in Hc.
    case_decide; [done|]. destruct (w_report w1); by simplify_eq. }
  split; [done|]. intros Hc2 Hne.
  apply App_cycle_Normal in Hc2 as [-> ->]. split; [|done].
  rewrite decide_False; [done|congruence].
Qed.

Lemma page_class_positive (i : nat) (r : MarketRow) :
  page_class (page_row i r) = "positive" ↔ gt0 (Change_24h r) = true.
Proof. unfold page_row. simpl. by destruct (gt0 _). Qed.

Lemma page_class_negative (i : nat) (r : MarketRow) :
  page_class (page_row i r) = "negative" ↔ gt0 (Change_24h r) ≠ true.
Proof. unfold page_row. simpl. by destruct (gt0 _). Qed.

(** The rows of the page, numbered by any [rank]. *)
Lemma page_classes (rank : nat → nat) (df : list MarketRow) :
  length (filter (λ r, page_class r = "positive") (imap (λ i, page_row (rank i)) df))
    = length (filter (λ r, gt0 (Change_24h r) = true) df) ∧
  length (filter (λ r, page_class r = "negative") (imap (λ i, page_row (rank i)) df))
    = length (filter (λ r, gt0 (Change_24h r) ≠ true) df).
Proof.
  revert rank. induction df as [|r df IH]; intros rank; [done|].
  rewrite imap_cons, !filter_cons. destruct (IH (rank ∘ S)) as [IHp IHn].
  change (imap ((λ i, page_row (rank i)) ∘ S) df)
    with (imap (λ i, page_row ((rank ∘ S) i)) df).
  cbv beta.
  pose proof (page_class_positive (rank 0) r) as Hpos.
  pose proof (page_class_negative (rank 0) r) as Hneg.
  repeat case_decide; rewrite ?length_cons, ?IHp, ?IHn; try done; exfalso; tauto.
Qed.

Lemma performers_complement (df : list MarketRow) :
  length (filter (λ r, gt0 (Change_24h r) ≠ true) df)
  = length (filter (λ r, lt0 (Change_24h r) = true) df) + length (filter unchanged df).
Proof.
  induction df as [|r df IH]; [done|].
  rewrite !filter_cons.
  pose proof (gt0_lt0 (Change_24h r)) as Hex.
  assert (unchanged r ↔ gt0 (Change_24h r) ≠ true ∧ lt0 (Change_24h r) ≠ true) as Hun.
  { unfold unchanged. destruct (gt0 (Change_24h r)), (lt0 (Change_24h r)); intuition. }
  repeat case_decide; simpl; try lia; tauto.
Qed.

(** X17: the page numbers the rows of the table 1, 2, ... in table order.
    It marks as 'positive' exactly the rows counted in
    [positive_performers], and as 'negative' all the others: the rows
    counted in [negative_performers] and also the rows whose change is zero
    or missing, which the stats count in neither. *)
Theorem X17_page_rows (now : string) (df : list MarketRow) (st : Stats) :
  analyze_market now df = Ok st →
  page_rank <$> imap page_row df = seq 1 (length df) ∧
  length (filter (λ r, page_class r = "positive") (imap page_row df))
    = positive_performers (market_health st) ∧
  length (filter (λ r, page_class r = "negative") (imap page_row df))
    = negative_performers (market_health st) + length (filter unchanged df).
Proof.
  intros (_ & _ & Hh & _)%analyze_market_inv. rewrite Hh. simpl. split.
  - rewrite fmap_imap.
    change (imap (λ n, page_rank ∘ page_row n) df) with (imap (λ n (_ : MarketRow), S n) df).
    by rewrite imap_seq_0, fmap_S_seq.
  - destruct (page_classes id df) as [Hp Hn].
    change (imap (λ i, page_row (id i)) df) with (imap page_row df) in Hp, Hn.
    by rewrite Hp, Hn, performers_complement.
Qed.

End run_claims.

(** ** The further properties on sample rows and passes *)

Lemma X5_top50_keeps_the_largest_witness :
  (length [eth; btc; odd] ≤ 50)%nat ∧
  left_out (QS := StableQS) [eth; btc; odd] = [] ∧
  top50 (QS := StableQS) [eth; btc; odd] ≡ₚ to_frame <$> [eth; btc; odd].
Proof.
  assert (length [eth; btc; odd] ≤ 50)%nat as Hlen by (simpl; lia).
  split; [exact Hlen|].
  destruct (X5_top50_keeps_the_largest (QS := StableQS) [eth; btc; odd]) as (_ & _ & H).
  exact (H Hlen).
Defined.

Lemma X6_performers_partition_witness :
  ∃ st,
    analyze_market "2024-05-01 10:05"
      (final_row <$> top50 (QS := StableQS) [eth; btc; odd]) = Ok st ∧
    positive_performers (market_health st) = 1 ∧
    negative_performers (market_health st) = 1 ∧
    (positive_performers (market_health st) + negative_performers (market_health st)
     ≤ length (final_row <$> top50 (QS := StableQS) [eth; btc; odd]))%nat.
Proof.
  eassert (analyze_market "2024-05-01 10:05"
             (final_row <$> top50 (QS := StableQS) [eth; btc; odd]) = Ok _) as Hst
    by (by vm_compute).
  destruct (X6_performers_partition _ _ _ Hst) as [_ Hle].
  eexists. split; [exact Hst|]. split; [by vm_compute|]. split; [by vm_compute|exact Hle].
Defined.

Lemma X8_top_5_are_the_largest_witness :
  ∃ st listed rest,
    analyze_market "2024-05-01 10:05"
      (final_row <$> top50 (QS := StableQS) [eth; btc; odd]) = Ok st ∧
    top_5_by_market_cap (detailed_analysis st) = top_coin <$> listed ∧
    length listed = 3 ∧
    listed ++ rest ≡ₚ final_row <$> top50 (QS := StableQS) [eth; btc; odd] ∧
    StronglySorted (desc_order Market_Cap) listed.
Proof.
  eassert (analyze_market "2024-05-01 10:05"
             (final_row <$> top50 (QS := StableQS) [eth; btc; odd]) = Ok _) as Hst
    by (by vm_compute).
  destruct (X8_top_5_are_the_largest _ _ _ Hst)
    as (listed & rest & Htop & Hlen & Hperm & Hs & _).
  eexists _, listed, rest. split; [exact Hst|]. split; [exact Htop|].
  split; [exact Hlen|]. split; [exact Hperm|exact Hs].
Defined.

Lemma X9_highest_and_lowest_change_witness :
  ∃ st hi lo,
    analyze_market "2024-05-01 10:05"
      (final_row <$> top50 (QS := StableQS) [eth; btc; odd]) = Ok st ∧
    highest_24h_change (price_changes (detailed_analysis st)) = change_record hi ∧
    lowest_24h_change (price_changes (detailed_analysis st)) = change_record lo ∧
    (∃ x, Change_24h hi = Some x ∧ (0 <=? x)%Z = true) ∧
    (∃ x, Change_24h lo = Some x ∧ (x <=? 0)%Z = true).
Proof.
  eassert (analyze_market "2024-05-01 10:05"
             (final_row <$> top50 (QS := StableQS) [eth; btc; odd]) = Ok _) as Hst
    by (by vm_compute).
  destruct (X9_highest_and_lowest_change _ _ _ Hst)
    as (hi & lo & _ & _ & Hhi & Hlo & Hall).
  eexists _, hi, lo. split; [exact Hst|]. split; [exact Hhi|]. split; [exact Hlo|].
  apply (Hall (final_row (to_frame odd)) 0%Z); [|by vm_compute].
  vm_compute. do 2 right. left.
Defined.

Lemma X11_published_in_sync_witness :
  ∃ df st,
    EvReport df st ∈ (Main.run (QS := StableQS) [fine 10] (Main.init 300)).2 ∧
    EvExcel df st ∈ (Main.run (QS := StableQS) [fine 10] (Main.init 300)).2 ∧
    ∃ w, w ∈ [fine 10] ∧ aggregated (QS := StableQS) w df st.
Proof.
  eassert ((Main.run (QS := StableQS) [fine 10] (Main.init 300)).2
           = [EvFetch; EvExcel _ _; EvReport _ _; EvSleep 300]) as Htr
    by (by vm_compute).
  destruct (X11_published_in_sync (QS := StableQS) [fine 10]) as [HMain _].
  match type of Htr with
  | _ = [_; _; EvReport ?df ?st; _] =>
      exists df, st; destruct (HMain (Main.init 300) df st) as [_ H]
  end.
  match goal with
  | |- ?P ∧ _ => assert P as Hin by (rewrite Htr; do 2 right; left)
  end.
  destruct (H Hin) as [Hagg Hex].
  split; [exact Hin|]. split; [exact Hex|exact Hagg].
Defined.

Lemma X12_app_loop_is_main_loop_witness :
  App.update_interval (App.init (F := Z) 300) = Main.update_interval (Main.init 300) ∧
  App.last_report_hour (App.init (F := Z) 300) = Main.last_report_hour (Main.init 300) ∧
  (App.run (QS := StableQS) [fine 10; api_down; report_fails; fine 11] (App.init 300)).2
  = (Main.run (QS := StableQS) [fine 10; api_down; report_fails; fine 11] (Main.init 300)).2.
Proof.
  split; [done|]. split; [done|].
  apply (X12_app_loop_is_main_loop (QS := StableQS)); done.
Defined.

Lemma X13_fetches_and_sleeps_witness :
  Forall (λ w, w_running w = true) [fine 10; api_down; excel_fails] ∧
  count_fetches (App.run (QS := StableQS) [fine 10; api_down; excel_fails] (App.init 300)).2
    = 3 ∧
  count_sleeps (App.run (QS := StableQS) [fine 10; api_down; excel_fails] (App.init 300)).2
    = length (filter fetches_rows [fine 10; api_down; excel_fails]).
Proof.
  assert (Forall (λ w, w_running w = true) [fine 10; api_down; excel_fails]) as Hall
    by (by repeat constructor).
  split; [exact Hall|].
  destruct (X13_fetches_and_sleeps (QS := StableQS) _ Hall) as [_ HApp].
  destruct (HApp (App.init 300)) as (Hf & Hs & _).
  split; [exact Hf|exact Hs].
Defined.

Lemma X15_failed_report_is_retried_witness :
  ∃ t1 tr1 t2 tr2,
    App.cycle (QS := StableQS) report_fails (App.init 300) = (t1, tr1, Raised IOError) ∧
    App.last_report_hour t1 = None ∧
    App.cycle (QS := StableQS) (fine 10) t1 = (t2, tr2, Normal ()) ∧
    count_reports tr2 = 1 ∧ App.last_report_hour t2 = Some 10.
Proof.
  eassert (App.cycle (QS := StableQS) report_fails (App.init 300) = (_, _, Raised IOError))
    as E1 by (by vm_compute).
  match type of E1 with _ = (?t1, _, _) =>
    eassert (App.cycle (QS := StableQS) (fine 10) t1 = (_, _, Normal ()))
      as E2 by (by vm_compute)
  end.
  match type of E2 with _ = (?t2, ?tr2, _) =>
    destruct (X15_failed_report_is_retried (QS := StableQS) report_fails (fine 10)
                _ _ t2 _ tr2 _ E1) as [Hm Hretry]
  end.
  destruct (Hretry E2) as [Hc Hh]; [done|].
  eexists _, _, _, _. split; [exact E1|]. split; [exact Hm|].
  split; [exact E2|]. split; [exact Hc|exact Hh].
Defined.

Lemma X17_page_rows_witness :
  ∃ st,
    analyze_market "2024-05-01 10:05"
      (final_row <$> top50 (QS := StableQS) [eth; btc; odd]) = Ok st ∧
    page_rank <$> imap page_row (final_row <$> top50 (QS := StableQS) [eth; btc; odd])
      = [1; 2; 3] ∧
    length (filter (λ r, page_class r = "negative")
              (imap page_row (final_row <$> top50 (QS := StableQS) [eth; btc; odd])))
      = negative_performers (market_health st) + 1.
Proof.
  eassert (analyze_market "2024-05-01 10:05"
             (final_row <$> top50 (QS := StableQS) [eth; btc; odd]) = Ok _) as Hst
    by (by vm_compute).
  destruct (X17_page_rows _ _ _ Hst) as (Hrank & _ & Hneg).
  eexists. split; [exact Hst|]. split; [exact Hrank|].
  rewrite Hneg. f_equal.
Defined.

